(** * Heading extraction from page-annotated text (src/src/app.py)

    A shallow embedding of [AdvancedPDFHeadingExtractor] and of
    [extract_headings_from_pdf_text], followed by the properties of the
    outline it computes.

    Conventions of the embedding.
    - A Python [str] is a [list ascii]; a character is a code point in
      U+0000..U+00FF (Latin-1), the range in which every character used by
      the patterns of the program lives (including the copyright glyph,
      U+00A9).  The character classes below are those of CPython on that
      range.
    - A Python [int] is a [Z]; list indices and [len] are [nat].
    - An exception is a [Raise] in the [result] monad: [int(str)] raises
      [ValueError], [list[i]] raises [IndexError], [next(gen)] raises
      [StopIteration].
    - The float constants of the program only occur in comparisons; they
      are kept as exact decimals (confidence in tenths, the 0.3 ratio
      cross-multiplied), which orders them exactly as the doubles do on the
      values involved (lengths up to 200). *)

From Stdlib Require Import String Ascii List Bool Arith ZArith Lia.
From Stdlib Require Import Permutation Sorted.
From Stdlib Require DecimalNat.
Import ListNotations.
Open Scope list_scope.

(** ** Python values *)

Module Py.

Definition str := list ascii.

(** String literals of the source. *)
Definition lit (x : string) : str := list_ascii_of_string x.

Definition code (c : ascii) : nat := nat_of_ascii c.

Definition between (lo hi : nat) (c : ascii) : bool :=
  (lo <=? code c) && (code c <=? hi).

Definition one_of (l : list nat) (c : ascii) : bool :=
  existsb (Nat.eqb (code c)) l.

(** [str.isspace], the class stripped by [str.strip()] and matched by [\s]:
    TAB..CR, FS..US, SPACE, NEL, NBSP. *)
Definition is_space (c : ascii) : bool :=
  between 9 13 c || between 28 32 c || one_of [133; 160] c.

(** [\d]: the decimal digits (category Nd). *)
Definition is_decimal (c : ascii) : bool := between 48 57 c.

(** [str.isdigit] on one character: decimals and the superscripts 1, 2, 3. *)
Definition is_digit (c : ascii) : bool :=
  is_decimal c || one_of [178; 179; 185] c.

Definition is_upper (c : ascii) : bool :=
  between 65 90 c || between 192 214 c || between 216 222 c.

Definition is_alpha (c : ascii) : bool :=
  between 65 90 c || between 97 122 c || one_of [170; 181; 186] c
  || between 192 214 c || between 216 246 c || between 248 255 c.

(** [str.isalnum] on one character: letters, digits and the vulgar
    fractions (numeric). *)
Definition is_alnum (c : ascii) : bool :=
  is_alpha c || is_digit c || between 188 190 c.

Definition lower_char (c : ascii) : ascii :=
  if is_upper c then ascii_of_nat (code c + 32) else c.

Definition lower (s : str) : str := map lower_char s.

Definition isnil {A} (l : list A) : bool :=
  match l with [] => true | _ => false end.

Fixpoint str_eqb (a b : str) : bool :=
  match a, b with
  | [], [] => true
  | x :: a', y :: b' => Ascii.eqb x y && str_eqb a' b'
  | _, _ => false
  end.

Fixpoint dropwhile (p : ascii -> bool) (s : str) : str :=
  match s with
  | [] => []
  | c :: r => if p c then dropwhile p r else s
  end.

Fixpoint takewhile (p : ascii -> bool) (s : str) : str :=
  match s with
  | [] => []
  | c :: r => if p c then c :: takewhile p r else []
  end.

Definition lstrip (s : str) : str := dropwhile is_space s.
Definition rstrip (s : str) : str := rev (dropwhile is_space (rev s)).
Definition strip (s : str) : str := rstrip (lstrip s).

(** [s.split(sep)] for a one-character separator. *)
Fixpoint split (sep : ascii) (s : str) : list str :=
  match s with
  | [] => [[]]
  | c :: r =>
      if Ascii.eqb c sep then [] :: split sep r
      else match split sep r with
           | [] => [[c]]
           | w :: ws => (c :: w) :: ws
           end
  end.

(** [s.startswith(p)], and the remainder after the prefix. *)
Fixpoint after_prefix (p s : str) : option str :=
  match p, s with
  | [], _ => Some s
  | x :: p', y :: s' => if Ascii.eqb x y then after_prefix p' s' else None
  | _ :: _, [] => None
  end.

Definition startswith (s p : str) : bool :=
  match after_prefix p s with Some _ => true | None => false end.

(** [p in s] (substring test). *)
Fixpoint contains (p s : str) : bool :=
  startswith s p || match s with [] => false | _ :: r => contains p r end.

(** [text.isdigit()]. *)
Definition isdigit (s : str) : bool := negb (isnil s) && forallb is_digit s.

Definition count (p : ascii -> bool) (s : str) : nat := length (filter p s).

(** *** Exceptions *)

Inductive exn := ValueError | IndexError | StopIteration.

Inductive result (A : Type) : Type :=
| Ok (a : A)
| Raise (e : exn).
Arguments Ok {A} a.
Arguments Raise {A} e.

Definition bind {A B} (m : result A) (k : A -> result B) : result B :=
  match m with
  | Ok a => k a
  | Raise e => Raise e
  end.

(** [l[i]] for a non-negative index. *)
Definition getitem {A} (l : list A) (i : nat) : result A :=
  match nth_error l i with
  | Some a => Ok a
  | None => Raise IndexError
  end.

(** [int(s)] for the strings the program converts (captures of [\d+]).
    CPython refuses a decimal string of more than 4300 digits
    (sys.int_info.default_max_str_digits) with a ValueError. *)
Definition int_max_str_digits : Z := 4300.

Definition digit_value (c : ascii) : Z := Z.of_nat (code c) - 48.

Definition int (s : str) : result Z :=
  if isnil s || negb (forallb is_decimal s) then Raise ValueError
  else if (int_max_str_digits <? Z.of_nat (length s))%Z then Raise ValueError
  else Ok (fold_left (fun acc c => (10 * acc + digit_value c)%Z) s 0%Z).

(** [list.sort(key=...)]: a stable sort; [le a b] compares the keys. *)
Fixpoint insert_by {A} (le : A -> A -> bool) (x : A) (l : list A) : list A :=
  match l with
  | [] => [x]
  | y :: l' => if le x y then x :: l else y :: insert_by le x l'
  end.

Fixpoint sort_by {A} (le : A -> A -> bool) (l : list A) : list A :=
  match l with
  | [] => []
  | x :: l' => insert_by le x (sort_by le l')
  end.

End Py.
Import Py.

Notation "x <- m ;; k" := (bind m (fun x => k))
  (at level 61, m at next level, right associativity).

(** ** The regular expressions of the program

    Every pattern is applied to a line, or to a piece of a line, and a line
    holds no newline (lines are pieces of [pdf_text.split('\n')]; the one
    text that may hold a newline, the argument of [_clean_heading_text],
    loses it in the first substitution).  On such text [.] matches every
    character and [$] only the end of the string. *)

Module Re.

(** Patterns without capture are sequences of tokens matched greedily from
    the left.  In each pattern below, what follows a repetition or an
    optional character cannot start with a character of its class, so the
    greedy run is the only way the backtracking matcher can succeed. *)
Inductive tok :=
| Lit (s : str)                     (* literal text *)
| Opt (c : ascii)                   (* c? *)
| Plus (cls : ascii -> bool)        (* [cls]+ *)
| Star (cls : ascii -> bool)        (* [cls]* *)
| Rep (n : nat) (cls : ascii -> bool) (* [cls]{n} *)
| Any                               (* .* *)
| End.                              (* $ *)

Fixpoint take_rep (n : nat) (cls : ascii -> bool) (s : str) : option str :=
  match n, s with
  | O, _ => Some s
  | S n', c :: r => if cls c then take_rep n' cls r else None
  | S _, [] => None
  end.

(** The text left after the pattern, when it matches at the start. *)
Fixpoint run (p : list tok) (s : str) : option str :=
  match p with
  | [] => Some s
  | Lit l :: p' =>
      match after_prefix l s with Some r => run p' r | None => None end
  | Opt c :: p' =>
      match s with
      | x :: r => if Ascii.eqb x c then run p' r else run p' s
      | [] => run p' s
      end
  | Plus cls :: p' =>
      match takewhile cls s with
      | [] => None
      | _ :: _ => run p' (dropwhile cls s)
      end
  | Star cls :: p' => run p' (dropwhile cls s)
  | Rep n cls :: p' =>
      match take_rep n cls s with Some r => run p' r | None => None end
  | Any :: p' => run p' []
  | End :: p' => match s with [] => run p' s | _ :: _ => None end
  end.

(** [re.match(p, s)] as a truth value. *)
Definition matches (p : list tok) (s : str) : bool :=
  match run p s with Some _ => true | None => false end.

(** [(\d+)] at the start: the digits and the rest.  The run is maximal in
    every pattern of the program, where a non-digit must follow. *)
Definition digits1 (s : str) : option (str * str) :=
  match takewhile is_decimal s with
  | [] => None
  | d => Some (d, dropwhile is_decimal s)
  end.

(** [Page (\d+) of (\d+)] at the start of [s]: group 1. *)
Definition page_marker_here (s : str) : option str :=
  match after_prefix (lit "Page ") s with
  | Some r =>
      match digits1 r with
      | Some (p, r') =>
          match after_prefix (lit " of ") r' with
          | Some (c :: _) => if is_decimal c then Some p else None
          | _ => None
          end
      | None => None
      end
  | None => None
  end.

(** [re.search(r'Page (\d+) of (\d+)', s)]: group 1 of the leftmost match. *)
Fixpoint page_search (s : str) : option str :=
  match page_marker_here s with
  | Some p => Some p
  | None => match s with [] => None | _ :: r => page_search r end
  end.

(** [\s+(.+)$]: group 1.  The spaces are taken greedily; when nothing is
    left for [.+] the matcher gives one space back to it. *)
Definition spaces_rest (s : str) : option str :=
  match takewhile is_space s, dropwhile is_space s with
  | [], _ => None
  | _ :: _, (_ :: _) as r => Some r
  | _ :: (_ :: _) as ws, [] => Some [last ws " "%char]
  | [_], [] => None
  end.

(** [^(\d+)\.\s+(.+)$]: groups 1 and 2. *)
Definition main_match (line : str) : option (str * str) :=
  match digits1 line with
  | Some (num, "."%char :: r) =>
      match spaces_rest r with
      | Some text => Some (num, text)
      | None => None
      end
  | _ => None
  end.

(** [(\d+\.\d+)] at the start: the group and the rest. *)
Definition subnumber (s : str) : option (str * str) :=
  match digits1 s with
  | Some (a, "."%char :: r) =>
      match digits1 r with
      | Some (b, r') => Some (a ++ "."%char :: b, r')
      | None => None
      end
  | _ => None
  end.

(** [^(\d+\.\d+)\s+(.+)$]: groups 1 and 2. *)
Definition sub_match (line : str) : option (str * str) :=
  match subnumber line with
  | Some (num, r) =>
      match spaces_rest r with
      | Some text => Some (num, text)
      | None => None
      end
  | None => None
  end.

(** The longest suffix of [s] in the class, and what precedes it. *)
Definition rsplit (cls : ascii -> bool) (s : str) : str * str :=
  (rev (dropwhile cls (rev s)), rev (takewhile cls (rev s))).

(** [\s+(.+?)\s+(\d+)$]: groups 1 and 2.  After the leading spaces (taken
    greedily) the lazy group stops before the spaces that precede the
    trailing number.  When only digits follow the leading spaces, the
    matcher gives two of at least three spaces back: the earlier of the two
    becomes the text and the later the separator. *)
Definition toc_tail (s : str) : option (str * str) :=
  let ws := takewhile is_space s in
  let r := dropwhile is_space s in
  match ws with
  | [] => None
  | _ :: _ =>
      let (xw, d) := rsplit is_decimal r in
      let (x, w) := rsplit is_space xw in
      match x, w, d with
      | _ :: _, _ :: _, _ :: _ => Some (x, d)
      | [], [], _ :: _ =>
          if 3 <=? length ws
          then Some ([nth (length ws - 2) ws " "%char], d)
          else None
      | _, _, _ => None
      end
  end.

(** [^(\d+)\.\s+(.+?)\s+(\d+)$]: the three groups. *)
Definition toc_main_match (line : str) : option (str * str * str) :=
  match digits1 line with
  | Some (num, "."%char :: r) =>
      match toc_tail r with
      | Some (text, page_num) => Some (num, text, page_num)
      | None => None
      end
  | _ => None
  end.

(** [^(\d+\.\d+)\s+(.+?)\s+(\d+)$]: the three groups. *)
Definition toc_sub_match (line : str) : option (str * str * str) :=
  match subnumber line with
  | Some (num, r) =>
      match toc_tail r with
      | Some (text, page_num) => Some (num, text, page_num)
      | None => None
      end
  | None => None
  end.

(** [re.sub(r'\s+', ' ', s)]; [in_run] tells that the previous character
    was a space already replaced. *)
Fixpoint collapse_spaces (in_run : bool) (s : str) : str :=
  match s with
  | [] => []
  | c :: r =>
      if is_space c
      then (if in_run then collapse_spaces true r
            else " "%char :: collapse_spaces true r)
      else c :: collapse_spaces false r
  end.

(** [\.+\s*\d*\s*$] matches the whole of [s].  The dots are followed by
    spaces, digits and spaces, each run possibly empty; a shorter first run
    of spaces only moves spaces to the last run, so the greedy runs decide
    the match. *)
Definition dots_number (s : str) : bool :=
  matches [Plus (Ascii.eqb "."); Star is_space; Star is_decimal;
           Star is_space; End] s.

(** [re.sub(r'\.+\s*\d*\s*$', '', s)]: the leftmost match runs to the end of
    the text and is cut off. *)
Fixpoint cut_dots_number (s : str) : str :=
  if dots_number s then []
  else match s with
       | [] => []
       | c :: r => c :: cut_dots_number r
       end.

End Re.

(** ** The extractor *)

Import Re.

Inductive heading_level := H1 | H2.

(** A heading candidate, the dict built by the detectors; [confidence] is
    in tenths (9 for 0.9). *)
Record candidate := mkCandidate {
  level : heading_level;
  text : str;
  page : Z;
  position : nat;
  confidence : Z
}.

(** An entry of the outline, the dict [clean_heading]. *)
Record heading := mkHeading {
  h_level : heading_level;
  h_text : str;
  h_page : Z
}.

(** The dict returned by [extract_headings]. *)
Record document := mkDocument {
  title : str;
  outline : list heading
}.

Definition copyright_sign : ascii := ascii_of_nat 169.

(** [for i, line in enumerate(lines)], each turn appending [body i line] to
    the list that the loop returns. *)
Fixpoint for_enumerate {A} (body : nat -> str -> result (list A))
    (i : nat) (lines : list str) : result (list A) :=
  match lines with
  | [] => Ok []
  | line :: rest =>
      out <- body i line ;;
      more <- for_enumerate body (S i) rest ;;
      Ok (out ++ more)
  end.

(** [__init__]: [self.lines]. *)
Definition init_lines (pdf_text : str) : list str :=
  filter (fun l => negb (isnil l)) (map strip (split "010"%char pdf_text)).

(** [_parse_page_info]: [line_to_page] has the keys [0..len(lines)-1]; it is
    the list of its values, and [line_to_page.get(i, 1)] is [page_get]. *)
Fixpoint parse_pages (current_page : Z) (lines : list str) : result (list Z) :=
  match lines with
  | [] => Ok []
  | line :: rest =>
      current_page <- match page_search line with
                      | Some g1 => int g1
                      | None => Ok current_page
                      end ;;
      more <- parse_pages current_page rest ;;
      Ok (current_page :: more)
  end.

Definition _parse_page_info (lines : list str) : result (list Z) :=
  parse_pages 1 lines.

Definition page_get (line_to_page : list Z) (i : nat) : Z :=
  nth i line_to_page 1%Z.

Definition noise_patterns : list (list tok) :=
  [ [Lit (lit "copyright"); Star is_space; Opt copyright_sign];
    [Lit (lit "version"); Plus is_space; Plus is_decimal];
    [Lit (lit "page"); Plus is_space; Plus is_decimal];
    [Rep 4 is_decimal; End];
    [Lit [copyright_sign]];
    [Plus is_decimal; End];
    [Plus (fun c => existsb (Ascii.eqb c) (lit "ivx")); End];
    [Lit (lit "www.")];
    [Lit (lit "http"); Opt "s"; Lit (lit "://")];
    [Star is_space; End] ].

Definition _is_noise_line (line : str) : bool :=
  let line_lower := lower line in
  existsb (fun pattern => matches pattern line_lower) noise_patterns.

Definition _clean_heading_text (text : str) : str :=
  let text := collapse_spaces false text in
  let text := cut_dots_number text in
  strip text.

Definition _is_valid_heading (lines : list str) (text : str)
    (line_index : nat) : result bool :=
  if isnil text || (length text <? 3) || (200 <? length text) then Ok false
  else if isdigit text then Ok false
  else
    let special_char_count :=
      count (fun c => negb (is_alnum c) && negb (Ascii.eqb c " ")) text in
    (* special_char_count > len(text) * 0.3 *)
    if 3 * length text <? 10 * special_char_count then Ok false
    else
      from_prev <-
        (if 0 <? line_index then
           prev_line <- getitem lines (line_index - 1) ;;
           let prev_line := strip prev_line in
           Ok (if (length prev_line <? 20) || isnil prev_line then 1 else 0)
         else Ok 0) ;;
      from_next <-
        (if line_index <? length lines - 1 then
           next_line <- getitem lines (line_index + 1) ;;
           let next_line := strip next_line in
           Ok (match next_line with
               | [] => 1
               | c :: _ => if is_upper c then 1 else 0
               end)
         else Ok 0) ;;
      let context_score := from_prev + from_next in
      Ok (1 <=? context_score).

Definition numbered_body (lines : list str) (line_to_page : list Z)
    (i : nat) (line : str) : result (list candidate) :=
  if _is_noise_line line then Ok []
  else
    match main_match line with
    | Some (num, g2) =>
        let text := _clean_heading_text g2 in
        ok <- _is_valid_heading lines text i ;;
        Ok (if ok
            then [mkCandidate H1 (num ++ lit ". " ++ text)
                    (page_get line_to_page i) i 9]
            else [])
    | None =>
        match sub_match line with
        | Some (num, g2) =>
            let text := _clean_heading_text g2 in
            ok <- _is_valid_heading lines text i ;;
            Ok (if ok
                then [mkCandidate H2 (num ++ lit " " ++ text)
                        (page_get line_to_page i) i 8]
                else [])
        | None => Ok []
        end
    end.

Definition _extract_numbered_headings (lines : list str)
    (line_to_page : list Z) : result (list candidate) :=
  for_enumerate (numbered_body lines line_to_page) 0 lines.

(** [structural_patterns], in the order of the dict; each pattern is
    anchored at both ends. *)
Definition structural_patterns : list (list tok * heading_level) :=
  [ ([Lit (lit "acknowledgement"); Opt "s"; End], H1);
    ([Lit (lit "abstract"); End], H1);
    ([Lit (lit "introduction"); End], H1);
    ([Lit (lit "conclusion"); End], H1);
    ([Lit (lit "reference"); Opt "s"; End], H1);
    ([Lit (lit "revision"); Plus is_space; Lit (lit "history"); End], H1);
    ([Lit (lit "table"); Plus is_space; Lit (lit "of"); Plus is_space;
      Lit (lit "content"); Opt "s"; End], H1);
    ([Lit (lit "intended"); Plus is_space; Lit (lit "audience"); End], H2);
    ([Lit (lit "career"); Plus is_space; Lit (lit "path"); Opt "s"; Any;
      End], H2);
    ([Lit (lit "learning"); Plus is_space; Lit (lit "objective"); Opt "s";
      End], H2);
    ([Lit (lit "entry"); Plus is_space; Lit (lit "requirement"); Opt "s";
      End], H2);
    ([Lit (lit "business"); Plus is_space; Lit (lit "outcome"); Opt "s";
      End], H2);
    ([Lit (lit "content"); End], H2);
    ([Lit (lit "trademark"); Opt "s"; End], H2) ].

(** The inner loop over the patterns; [break] only follows an append. *)
Fixpoint structural_scan (lines : list str) (line_to_page : list Z)
    (i : nat) (line line_lower : str)
    (patterns : list (list tok * heading_level)) : result (list candidate) :=
  match patterns with
  | [] => Ok []
  | (pattern, lvl) :: more =>
      if matches pattern line_lower then
        ok <- _is_valid_heading lines line i ;;
        if ok
        then Ok [mkCandidate lvl line (page_get line_to_page i) i 6]
        else structural_scan lines line_to_page i line line_lower more
      else structural_scan lines line_to_page i line line_lower more
  end.

Definition structural_body (lines : list str) (line_to_page : list Z)
    (i : nat) (line : str) : result (list candidate) :=
  let line_lower := strip (lower line) in
  structural_scan lines line_to_page i line line_lower structural_patterns.

Definition _extract_structural_headings (lines : list str)
    (line_to_page : list Z) : result (list candidate) :=
  for_enumerate (structural_body lines line_to_page) 0 lines.

(** The two patterns of the table-of-contents detector, in order. *)
Definition toc_patterns : list (str -> option (str * str * str)) :=
  [toc_main_match; toc_sub_match].

Fixpoint toc_scan (i : nat) (line : str)
    (patterns : list (str -> option (str * str * str)))
    : result (list candidate) :=
  match patterns with
  | [] => Ok []
  | pattern :: more =>
      match pattern line with
      | Some (num, text, page_num) =>
          let lvl := if existsb (Ascii.eqb ".") num then H2 else H1 in
          p <- int page_num ;;
          Ok [mkCandidate lvl (num ++ lit " " ++ text) p i 5]
      | None => toc_scan i line more
      end
  end.

(** The line leaves the table of contents. *)
Definition toc_exit (line_lower : str) : bool :=
  startswith line_lower (lit "page ")
  || existsb (str_eqb line_lower)
       [lit "abstract"; lit "introduction"; lit "acknowledgements"].

(** The loop of [_extract_toc_headings], with its flag [in_toc]. *)
Fixpoint toc_loop (in_toc : bool) (i : nat) (lines : list str)
    : result (list candidate) :=
  match lines with
  | [] => Ok []
  | line :: rest =>
      let line_lower := strip (lower line) in
      if contains (lit "table of contents") line_lower
      then toc_loop true (S i) rest
      else if in_toc && toc_exit line_lower
      then toc_loop false (S i) rest
      else
        out <- (if in_toc && negb (isnil line)
                then toc_scan i line toc_patterns
                else Ok []) ;;
        more <- toc_loop in_toc (S i) rest ;;
        Ok (out ++ more)
  end.

Definition _extract_toc_headings (lines : list str) : result (list candidate) :=
  toc_loop false 0 lines.

(** The sort key [(-confidence, position)], compared. *)
Definition confidence_position_le (a b : candidate) : bool :=
  (confidence b <? confidence a)%Z
  || ((confidence a =? confidence b)%Z && (position a <=? position b)).

(** The deduplication key [(text.lower().strip(), page)]. *)
Definition dedup_key (t : str) (p : Z) : str * Z := (strip (lower t), p).

Definition key_eqb (a b : str * Z) : bool :=
  str_eqb (fst a) (fst b) && (snd a =? snd b)%Z.

(** The loop that fills [unique_headings]; [seen] is the set of keys. *)
Fixpoint unique_loop (seen : list (str * Z)) (headings : list candidate)
    : list heading :=
  match headings with
  | [] => []
  | heading :: rest =>
      let key := dedup_key (text heading) (page heading) in
      if negb (existsb (key_eqb key) seen)
      then mkHeading (level heading) (text heading) (page heading)
             :: unique_loop (key :: seen) rest
      else unique_loop seen rest
  end.

(** [next(h['position'] for h in headings
          if h['text'] == x['text'] and h['page'] == x['page'])]. *)
Fixpoint first_position (headings : list candidate) (x : heading)
    : result nat :=
  match headings with
  | [] => Raise StopIteration
  | h :: rest =>
      if str_eqb (text h) (h_text x) && (page h =? h_page x)%Z
      then Ok (position h)
      else first_position rest x
  end.

(** The keys of a [sort(key=...)], computed for every element first. *)
Fixpoint with_keys {A K} (key : A -> result K) (l : list A)
    : result (list (K * A)) :=
  match l with
  | [] => Ok []
  | x :: rest =>
      k <- key x ;;
      more <- with_keys key rest ;;
      Ok ((k, x) :: more)
  end.

Definition _clean_and_process_headings (headings : list candidate)
    : result (list heading) :=
  let headings := sort_by confidence_position_le headings in
  let unique_headings := unique_loop [] headings in
  keyed <- with_keys (first_position headings) unique_headings ;;
  Ok (map snd (sort_by (fun a b => fst a <=? fst b) keyed)).

(** The test of the title loop on one line. *)
Definition title_line (line : str) : bool :=
  (10 <? length line)
  && negb (matches [Plus is_decimal; Lit (lit ".")] line)
  && negb (_is_noise_line line)
  && negb (startswith (lower line) (lit "page ")).

Definition _determine_document_title (lines : list str)
    (headings : list heading) : str :=
  if isnil headings then lit "Unknown Document"
  else
    match find title_line (firstn 10 lines) with
    | Some line => line
    | None =>
        match headings with
        | h :: _ => h_text h
        | [] => lit "Unknown Document"
        end
    end.

(** [AdvancedPDFHeadingExtractor(pdf_text).extract_headings()]. *)
Definition extract_headings (pdf_text : str) : result document :=
  let lines := init_lines pdf_text in
  line_to_page <- _parse_page_info lines ;;
  numbered <- _extract_numbered_headings lines line_to_page ;;
  structural <- _extract_structural_headings lines line_to_page ;;
  toc <- _extract_toc_headings lines ;;
  let headings := numbered ++ structural ++ toc in
  cleaned_headings <- _clean_and_process_headings headings ;;
  let title := _determine_document_title lines cleaned_headings in
  Ok (mkDocument title cleaned_headings).

Definition extract_headings_from_pdf_text (pdf_text : str) : result document :=
  extract_headings pdf_text.

(** ** The text passed to the extractor

    [extract_text_with_ocr] and [extract_text_with_pdfplumber] build the
    text from the pages of a document.  The libraries that read the
    document (pdf2image, pytesseract, pdfplumber) are outside the program:
    the two functions are modelled on the list of the page texts that the
    libraries return, and their [except] clauses, which only re-label the
    exceptions of the libraries, are left out. *)

Definition newline : str := ["010"%char].

Fixpoint uint_chars (u : Decimal.uint) : str :=
  match u with
  | Decimal.Nil => []
  | Decimal.D0 u => "0"%char :: uint_chars u
  | Decimal.D1 u => "1"%char :: uint_chars u
  | Decimal.D2 u => "2"%char :: uint_chars u
  | Decimal.D3 u => "3"%char :: uint_chars u
  | Decimal.D4 u => "4"%char :: uint_chars u
  | Decimal.D5 u => "5"%char :: uint_chars u
  | Decimal.D6 u => "6"%char :: uint_chars u
  | Decimal.D7 u => "7"%char :: uint_chars u
  | Decimal.D8 u => "8"%char :: uint_chars u
  | Decimal.D9 u => "9"%char :: uint_chars u
  end.

(** [str(n)], the way an f-string writes a non-negative [int]. *)
Definition str_of_nat (n : nat) : str := uint_chars (Nat.to_uint n).

(** The line [Page {page_num} of {total}] of the f-string. *)
Definition page_marker (page_num total : nat) : str :=
  lit "Page " ++ str_of_nat page_num ++ lit " of " ++ str_of_nat total.

(** The loop of [extract_text_with_ocr]; [page_texts] are the results of
    [pytesseract.image_to_string] on the pages, [total] is [len(pages)]. *)
Fixpoint ocr_loop (total page_num : nat) (page_texts : list str) (text : str)
    : str :=
  match page_texts with
  | [] => text
  | page_text :: rest =>
      let text := text ++ (newline ++ page_marker page_num total ++ newline) in
      let text := text ++ (page_text ++ newline) in
      ocr_loop total (S page_num) rest text
  end.

Definition extract_text_with_ocr (page_texts : list str) : str :=
  ocr_loop (length page_texts) 1 page_texts [].

(** The loop of [extract_text_with_pdfplumber]; [page_texts] are the
    results of [page.extract_text()], [None] included; a page without text
    is skipped and still counted. *)
Fixpoint plumber_loop (total page_num : nat)
    (page_texts : list (option str)) (text : str) : str :=
  match page_texts with
  | [] => text
  | page_text :: rest =>
      let text :=
        match page_text with
        | Some ((_ :: _) as page_text) =>
            let text :=
              text ++ (newline ++ page_marker page_num total ++ newline) in
            text ++ (page_text ++ newline)
        | _ => text
        end in
      plumber_loop total (S page_num) rest text
  end.

Definition extract_text_with_pdfplumber (page_texts : list (option str))
    : str :=
  plumber_loop (length page_texts) 1 page_texts [].

(** ** Notions used by the statements *)

(** The projection that [unique_loop] applies to a kept candidate. *)
Definition to_heading (c : candidate) : heading :=
  mkHeading (level c) (text c) (page c).

Definition candidate_key (c : candidate) : str * Z :=
  dedup_key (text c) (page c).

Definition heading_key (h : heading) : str * Z :=
  dedup_key (h_text h) (h_page h).

(** The candidates that [extract_headings] hands to
    [_clean_and_process_headings]. *)
Definition extract_candidates (pdf_text : str) : result (list candidate) :=
  let lines := init_lines pdf_text in
  line_to_page <- _parse_page_info lines ;;
  numbered <- _extract_numbered_headings lines line_to_page ;;
  structural <- _extract_structural_headings lines line_to_page ;;
  toc <- _extract_toc_headings lines ;;
  Ok (numbered ++ structural ++ toc).

(** The candidates kept by the deduplication loop, before projection. *)
Fixpoint kept_loop (seen : list (str * Z)) (headings : list candidate)
    : list candidate :=
  match headings with
  | [] => []
  | heading :: rest =>
      if negb (existsb (key_eqb (candidate_key heading)) seen)
      then heading :: kept_loop (candidate_key heading :: seen) rest
      else kept_loop seen rest
  end.

(** The longest run of consecutive decimal digits in a text. *)
Fixpoint longest_digit_run (s : str) : nat :=
  match s with
  | [] => 0
  | _ :: r => Nat.max (length (takewhile is_decimal s)) (longest_digit_run r)
  end.

(** [line] holds "Page <p> of <t>" starting at offset [k]. *)
Definition marker_at (line : str) (k : nat) (p : str) : Prop :=
  exists pre t post,
    length pre = k /\
    line = pre ++ lit "Page " ++ p ++ lit " of " ++ t ++ post /\
    p <> [] /\ forallb is_decimal p = true /\
    t <> [] /\ forallb is_decimal t = true.

(** The line starts with digits followed by a dot. *)
Definition numbered_prefix (line : str) : Prop :=
  exists d r, d <> [] /\ forallb is_decimal d = true /\
              line = d ++ "."%char :: r.

(** The line can serve as the document title. *)
Definition qualifies_as_title (line : str) : Prop :=
  10 < length line /\ ~ numbered_prefix line /\
  _is_noise_line line = false /\
  startswith (lower line) (lit "page ") = false.

(** The checks of [_is_valid_heading] on the candidate text alone. *)
Definition plausible_text (text : str) : Prop :=
  3 <= length text <= 200 /\ isdigit text = false /\
  10 * count (fun c => negb (is_alnum c) && negb (Ascii.eqb c " ")) text
    <= 3 * length text.

(** There is a line before line [i], shorter than 20 characters. *)
Definition short_previous_line (lines : list str) (i : nat) : Prop :=
  exists prev, 0 < i /\ nth_error lines (i - 1) = Some prev /\
               length (strip prev) < 20.

(** There is a line after line [i], blank or starting with a capital. *)
Definition capitalised_next_line (lines : list str) (i : nat) : Prop :=
  exists next, nth_error lines (i + 1) = Some next /\
    (strip next = [] \/
     exists c r, strip next = c :: r /\ is_upper c = true).

(** Every whitespace character of the text is a single space standing
    alone; [after_space] tells that a space precedes the text. *)
Fixpoint single_spaced (after_space : bool) (s : str) : Prop :=
  match s with
  | [] => True
  | c :: r =>
      if is_space c
      then c = " "%char /\ after_space = false /\ single_spaced true r
      else single_spaced false r
  end.

(** The number that ends a line: its longest suffix of decimal digits. *)
Definition trailing_number (line : str) : str := snd (rsplit is_decimal line).

(** The line opens a table of contents. *)
Definition opens_contents (line : str) : bool :=
  contains (lit "table of contents") (strip (lower line)).

(** The line starts with "page " or is one of the three section names,
    case apart. *)
Definition closes_contents (line : str) : bool :=
  toc_exit (strip (lower line)).

(** The flag [in_toc] after a line, from the flag before it. *)
Definition toc_step (in_toc : bool) (line : str) : bool :=
  if opens_contents line then true
  else if in_toc && closes_contents line then false
  else in_toc.

(** The flag [in_toc] when the loop reaches line [n]. *)
Definition toc_flag (in_toc : bool) (lines : list str) (n : nat) : bool :=
  fold_left toc_step (firstn n lines) in_toc.

(** Every run of digits inside the line can be converted by [int]. *)
Definition convertible (line : str) : Prop :=
  forall a d b,
    line = a ++ d ++ b -> d <> [] -> forallb is_decimal d = true ->
    exists n, int d = Ok n.

(** The lines of a text built by [extract_text_with_ocr]: for every page
    its marker and then the lines of its text. *)
Fixpoint ocr_lines (total page_num : nat) (page_texts : list str)
    : list str :=
  match page_texts with
  | [] => []
  | page_text :: rest =>
      page_marker page_num total :: init_lines page_text
      ++ ocr_lines total (S page_num) rest
  end.

(** The pages that these lines should get. *)
Fixpoint ocr_pages (page_num : nat) (page_texts : list str) : list Z :=
  match page_texts with
  | [] => []
  | page_text :: rest =>
      repeat (Z.of_nat page_num) (S (length (init_lines page_text)))
      ++ ocr_pages (S page_num) rest
  end.

(** A page text that [extract_text_with_pdfplumber] keeps. *)
Definition page_text_kept (page_text : option str) : list str :=
  match page_text with
  | Some ((_ :: _) as t) => [t]
  | _ => []
  end.

Fixpoint plumber_lines (total page_num : nat)
    (page_texts : list (option str)) : list str :=
  match page_texts with
  | [] => []
  | page_text :: rest =>
      flat_map (fun t => page_marker page_num total :: init_lines t)
        (page_text_kept page_text)
      ++ plumber_lines total (S page_num) rest
  end.

Fixpoint plumber_pages (page_num : nat) (page_texts : list (option str))
    : list Z :=
  match page_texts with
  | [] => []
  | page_text :: rest =>
      flat_map (fun t => repeat (Z.of_nat page_num)
                           (S (length (init_lines t))))
        (page_text_kept page_text)
      ++ plumber_pages (S page_num) rest
  end.

(** No line of the text holds a page marker. *)
Definition marker_free (page_text : str) : Prop :=
  forall line k p, In line (init_lines page_text) -> ~ marker_at line k p.

(** A loop body appends nothing, or one candidate of position [i]. *)
Definition at_most_one_at (i : nat) (out : list candidate) : Prop :=
  out = [] \/ exists c, out = [c] /\ position c = i.

(** ** Sample inputs *)

Definition sample_toc : str :=
  lit "Table of Contents
1. Introduction 5
Page 1 of 10".

Definition sample_toc_document : document :=
  mkDocument (lit "Table of Contents")
    [ mkHeading H1 (lit "1. Introduction 5") 1;
      mkHeading H1 (lit "1 Introduction") 5 ].

(** One line, long enough for a title, that no detector takes. *)
Definition title_only : str := lit "A Study of Heading Extraction".

(** A table of contents with a line that starts with "Page " and names
    the table of contents again. *)
Definition continued_toc : str :=
  lit "Table of Contents
Page 2 table of contents
1. Intro 5".

(** A table of contents whose entry is a line of 400 characters. *)
Definition long_toc_entry : str :=
  lit "Table of Contents
1. " ++ repeat "A"%char 395 ++ lit " 5".

(** A keyword line followed by a numbered line. *)
Definition sample_mixed : str :=
  lit "Overview
Abstract
1. Scope".

(** A text of noise lines only. *)
Definition sample_noise : str :=
  lit "Copyright 2024 Example Inc.
Page 1 of 3
www.example.org".

(** A page marker whose page number has 4301 digits. *)
Definition huge_page_marker : str :=
  lit "Page " ++ repeat "1"%char 4301 ++ lit " of 1".

(** * Properties *)

Arguments is_space : simpl never.
Arguments is_decimal : simpl never.
Arguments is_upper : simpl never.
Arguments is_alnum : simpl never.
Arguments is_digit : simpl never.
Arguments lower_char : simpl never.

(** ** Sample runs *)

Example main_match_sample :
  main_match (lit "1. Introduction") = Some (lit "1", lit "Introduction").
Proof. reflexivity. Qed.

Example sub_match_sample :
  sub_match (lit "1.1  Overview") = Some (lit "1.1", lit "Overview").
Proof. reflexivity. Qed.

Example toc_main_match_sample :
  toc_main_match (lit "1. Introduction 5")
  = Some (lit "1", lit "Introduction", lit "5").
Proof. reflexivity. Qed.

(** The lazy group runs up to the spaces before the last number. *)
Example toc_main_match_lazy :
  toc_main_match (lit "1. a 1 2") = Some (lit "1", lit "a 1", lit "2").
Proof. reflexivity. Qed.

(** With three spaces and a number only, a space becomes the text. *)
Example toc_main_match_spaces :
  toc_main_match (lit "1.   5") = Some (lit "1", lit " ", lit "5") /\
  toc_main_match (lit "1.  5") = None.
Proof. split; reflexivity. Qed.

Example page_search_sample :
  page_search (lit "xPage 1 Page 12 of 3") = Some (lit "12").
Proof. reflexivity. Qed.

Example noise_samples :
  map _is_noise_line
    [lit "Page 1 of 10"; lit "Copyright 2024"; lit "xiv"; lit "2024";
     lit "https://example.org"; lit "Introduction"; lit "1. Scope"]
  = [true; true; true; true; true; false; false].
Proof. vm_compute. reflexivity. Qed.

Example clean_sample :
  _clean_heading_text (lit "Scope  and   Goals ... 12") = lit "Scope and Goals".
Proof. vm_compute. reflexivity. Qed.

Example extract_sample_toc :
  extract_headings sample_toc = Ok sample_toc_document.
Proof. vm_compute. reflexivity. Qed.

(** ** The result monad *)

Lemma bind_Ok {A B} (m : result A) (k : A -> result B) (b : B) :
  bind m k = Ok b -> exists a, m = Ok a /\ k a = Ok b.
Proof.
  destruct m as [a|e]; simpl; intros H; [eauto | discriminate].
Qed.

Ltac inv_bind H :=
  let a := fresh "v" in
  let Ha := fresh "Hv" in
  apply bind_Ok in H; destruct H as (a & Ha & H).

(** ** Sorting *)

Section Sorting.
Context {A : Type} (le : A -> A -> bool).
Hypothesis le_total : forall a b, le a b = true \/ le b a = true.
Hypothesis le_trans :
  forall a b c, le a b = true -> le b c = true -> le a c = true.

Lemma insert_by_perm x l : Permutation (x :: l) (insert_by le x l).
Proof.
  induction l as [|y l IH]; simpl; [reflexivity|].
  destruct (le x y); [reflexivity|].
  rewrite perm_swap. now constructor.
Qed.

Lemma sort_by_perm l : Permutation l (sort_by le l).
Proof.
  induction l as [|x l IH]; simpl; [constructor|].
  rewrite <- insert_by_perm. now constructor.
Qed.

Lemma insert_by_sorted x l :
  StronglySorted (fun a b => le a b = true) l ->
  StronglySorted (fun a b => le a b = true) (insert_by le x l).
Proof.
  induction 1 as [|y l Hs IH Hy]; simpl.
  - repeat constructor.
  - destruct (le x y) eqn:E.
    + constructor; [now constructor|].
      constructor; [assumption|].
      rewrite Forall_forall in *. eauto.
    + constructor; [assumption|].
      assert (Hyx : le y x = true)
        by (destruct (le_total x y); congruence).
      rewrite Forall_forall in *. intros z Hz.
      apply (Permutation_in z (Permutation_sym (insert_by_perm x l))) in Hz.
      destruct Hz as [<-|Hz]; auto.
Qed.

Lemma sort_by_sorted l :
  StronglySorted (fun a b => le a b = true) (sort_by le l).
Proof.
  induction l; simpl; [constructor | now apply insert_by_sorted].
Qed.
End Sorting.

Lemma sort_by_map {A B} (f : A -> B) (leA : A -> A -> bool)
    (leB : B -> B -> bool) (l : list A) :
  (forall a b, leB (f a) (f b) = leA a b) ->
  sort_by leB (map f l) = map f (sort_by leA l).
Proof.
  intros Hle. induction l as [|x l IH]; simpl; [reflexivity|].
  rewrite IH. generalize (sort_by leA l) as s.
  induction s as [|y s IHs]; simpl; [reflexivity|].
  rewrite Hle. destruct (leA x y); simpl; [reflexivity | now rewrite IHs].
Qed.

Lemma confidence_position_le_total a b :
  confidence_position_le a b = true \/ confidence_position_le b a = true.
Proof.
  unfold confidence_position_le.
  destruct (Z.ltb_spec (confidence b) (confidence a)); [now left|].
  destruct (Z.ltb_spec (confidence a) (confidence b)); [now right|].
  assert (E : confidence a = confidence b) by lia.
  rewrite E, Z.eqb_refl. simpl.
  destruct (Nat.leb_spec (position a) (position b)); [now left|].
  right. apply Nat.leb_le. lia.
Qed.

Lemma confidence_position_le_trans a b c :
  confidence_position_le a b = true -> confidence_position_le b c = true ->
  confidence_position_le a c = true.
Proof.
  unfold confidence_position_le.
  rewrite !orb_true_iff, !andb_true_iff, !Z.ltb_lt, !Z.eqb_eq, !Nat.leb_le.
  lia.
Qed.

(** ** Deduplication *)

Lemma str_eqb_eq a b : str_eqb a b = true <-> a = b.
Proof.
  revert b. induction a as [|x a IH]; intros [|y b]; simpl;
    try (split; [discriminate | congruence]); [tauto|].
  rewrite andb_true_iff, Ascii.eqb_eq, IH.
  split; [intros [-> ->]; reflexivity | intros [= -> ->]; auto].
Qed.

Lemma key_eqb_eq a b : key_eqb a b = true <-> a = b.
Proof.
  destruct a as [s p], b as [s' p']. unfold key_eqb. simpl.
  rewrite andb_true_iff, str_eqb_eq, Z.eqb_eq.
  split; [intros [-> ->]; reflexivity | intros [= -> ->]; auto].
Qed.

Lemma seen_In k seen : existsb (key_eqb k) seen = true <-> In k seen.
Proof.
  rewrite existsb_exists. split.
  - intros (x & Hx & E). apply key_eqb_eq in E. now subst.
  - intros H. exists k. split; [assumption | now apply key_eqb_eq].
Qed.

Lemma unique_loop_kept seen hs :
  unique_loop seen hs = map to_heading (kept_loop seen hs).
Proof.
  revert seen. induction hs as [|h hs IH]; intros seen; simpl; [reflexivity|].
  fold (candidate_key h).
  destruct (existsb (key_eqb (candidate_key h)) seen); simpl;
    now rewrite IH.
Qed.

Lemma kept_loop_In seen hs c :
  In c (kept_loop seen hs) -> In c hs /\ ~ In (candidate_key c) seen.
Proof.
  revert seen. induction hs as [|h hs IH]; intros seen; simpl; [tauto|].
  destruct (existsb (key_eqb (candidate_key h)) seen) eqn:E; simpl.
  - intros H. apply IH in H. tauto.
  - intros [<-|H].
    + split; [now left|]. rewrite <- seen_In. congruence.
    + apply IH in H. simpl in H. tauto.
Qed.

Lemma kept_loop_NoDup seen hs :
  NoDup (map candidate_key (kept_loop seen hs)).
Proof.
  revert seen. induction hs as [|h hs IH]; intros seen; simpl; [constructor|].
  destruct (existsb (key_eqb (candidate_key h)) seen); simpl; [apply IH|].
  constructor; [|apply IH].
  rewrite in_map_iff. intros (c & E & Hc).
  apply kept_loop_In in Hc. destruct Hc as [_ Hc]. apply Hc.
  rewrite E. now left.
Qed.

(** A kept candidate is the first of its key in the list walked. *)
Lemma kept_loop_first seen hs c :
  In c (kept_loop seen hs) ->
  exists pre post, hs = pre ++ c :: post /\
    forall h, In h pre -> candidate_key h <> candidate_key c.
Proof.
  revert seen. induction hs as [|h hs IH]; intros seen; simpl; [tauto|].
  destruct (existsb (key_eqb (candidate_key h)) seen) eqn:E; simpl.
  - intros H. pose proof (kept_loop_In _ _ _ H) as [_ Hn].
    apply IH in H. destruct H as (pre & post & -> & Hpre).
    exists (h :: pre), post. split; [reflexivity|].
    intros h' [<-|H']; [|auto].
    intros Heq. apply Hn. rewrite <- Heq. now apply seen_In.
  - intros [<-|H].
    + exists [], hs. split; [reflexivity | intros ? []].
    + pose proof (kept_loop_In _ _ _ H) as [_ Hn].
      apply IH in H. destruct H as (pre & post & -> & Hpre).
      exists (h :: pre), post. split; [reflexivity|].
      intros h' [<-|H']; [|auto].
      intros Heq. apply Hn. rewrite <- Heq. now left.
Qed.

Lemma first_position_first pre c post :
  (forall h, In h pre -> candidate_key h <> candidate_key c) ->
  first_position (pre ++ c :: post) (to_heading c) = Ok (position c).
Proof.
  intros Hpre. induction pre as [|h pre IH]; simpl.
  - assert (E : str_eqb (text c) (text c) = true) by now apply str_eqb_eq.
    now rewrite E, Z.eqb_refl.
  - destruct (str_eqb (text h) (text c) && (page h =? page c)%Z) eqn:E.
    + exfalso. apply andb_true_iff in E. destruct E as [Et Ep].
      apply str_eqb_eq in Et. apply Z.eqb_eq in Ep.
      apply (Hpre h); [now left|].
      unfold candidate_key. now rewrite Et, Ep.
    + apply IH. intros h' Hh'. apply Hpre. now right.
Qed.

Lemma with_keys_positions hs kept :
  (forall c, In c kept ->
     exists pre post, hs = pre ++ c :: post /\
       forall h, In h pre -> candidate_key h <> candidate_key c) ->
  with_keys (first_position hs) (map to_heading kept)
  = Ok (map (fun c => (position c, to_heading c)) kept).
Proof.
  induction kept as [|c kept IH]; intros H; simpl; [reflexivity|].
  destruct (H c (or_introl eq_refl)) as (pre & post & -> & Hpre).
  change (mkHeading (level c) (text c) (page c)) with (to_heading c).
  rewrite first_position_first by assumption. simpl.
  rewrite IH; [reflexivity|]. intros c' Hc'. apply H. now right.
Qed.

Definition position_le (a b : candidate) : bool := position a <=? position b.

(** What [_clean_and_process_headings] returns: the kept candidates of the
    confidence order, sorted by their own position and projected. *)
Lemma clean_and_process_kept (headings : list candidate) :
  _clean_and_process_headings headings
  = Ok (map to_heading
          (sort_by position_le
             (kept_loop [] (sort_by confidence_position_le headings)))).
Proof.
  unfold _clean_and_process_headings.
  rewrite unique_loop_kept.
  rewrite with_keys_positions by (intros c Hc; eapply kept_loop_first; eauto).
  simpl.
  rewrite (sort_by_map (fun c => (position c, to_heading c)) position_le)
    by reflexivity.
  now rewrite map_map.
Qed.

(** ** The pipeline *)

Lemma extract_headings_Ok pdf_text doc :
  extract_headings pdf_text = Ok doc ->
  exists cands,
    extract_candidates pdf_text = Ok cands /\
    outline doc
    = map to_heading
        (sort_by position_le
           (kept_loop [] (sort_by confidence_position_le cands))) /\
    title doc = _determine_document_title (init_lines pdf_text) (outline doc).
Proof.
  unfold extract_headings, extract_candidates. intros H.
  inv_bind H. inv_bind H. inv_bind H. inv_bind H. inv_bind H.
  rewrite Hv; simpl; rewrite Hv0; simpl; rewrite Hv1; simpl.
  rewrite Hv2; simpl.
  rewrite clean_and_process_kept in Hv3.
  injection Hv3 as <-. injection H as <-. simpl. eauto.
Qed.

Lemma position_le_total a b :
  position_le a b = true \/ position_le b a = true.
Proof.
  unfold position_le.
  destruct (Nat.leb_spec (position a) (position b)); [now left|].
  right. apply Nat.leb_le. lia.
Qed.

Lemma position_le_trans a b c :
  position_le a b = true -> position_le b c = true -> position_le a c = true.
Proof. unfold position_le. rewrite !Nat.leb_le. lia. Qed.

(** C2: whatever the input text, no two headings of the outline have the
    same deduplication key (lower-cased and trimmed text, page). *)
Theorem outline_keys_unique (pdf_text : str) (doc : document) :
  extract_headings pdf_text = Ok doc ->
  NoDup (map heading_key (outline doc)).
Proof.
  intros H. apply extract_headings_Ok in H.
  destruct H as (cands & _ & -> & _).
  rewrite map_map.
  change (fun x => heading_key (to_heading x)) with candidate_key.
  eapply Permutation_NoDup.
  - apply Permutation_map. apply sort_by_perm.
  - apply kept_loop_NoDup.
Qed.

Lemma outline_keys_unique_sample :
  NoDup (map heading_key (outline sample_toc_document)).
Proof.
  apply (outline_keys_unique sample_toc). vm_compute. reflexivity.
Defined.

(** C3: the outline is the projection of kept candidates listed by
    non-decreasing position; each kept candidate is one of the candidates
    of the text, and it comes first, in the order of decreasing confidence
    then increasing position, among the candidates with its key. *)
Theorem outline_in_document_order (pdf_text : str) (doc : document) :
  extract_headings pdf_text = Ok doc ->
  exists cands kept,
    extract_candidates pdf_text = Ok cands /\
    outline doc = map to_heading kept /\
    (forall c, In c kept ->
       In c cands /\
       forall c', In c' cands -> candidate_key c' = candidate_key c ->
                  confidence_position_le c c' = true) /\
    StronglySorted (fun a b => position a <= position b) kept.
Proof.
  intros H. apply extract_headings_Ok in H.
  destruct H as (cands & Hc & Ho & _).
  exists cands. eexists. split; [exact Hc|]. split; [exact Ho|].
  pose proof (sort_by_perm confidence_position_le cands) as Pc.
  pose proof (sort_by_sorted confidence_position_le
                confidence_position_le_total confidence_position_le_trans
                cands) as Sc.
  split.
  - intros c Hin.
    apply (Permutation_in c (Permutation_sym (sort_by_perm position_le _)))
      in Hin.
    pose proof (kept_loop_In _ _ _ Hin) as [Hs _].
    split; [now apply (Permutation_in c (Permutation_sym Pc))|].
    apply kept_loop_first in Hin. destruct Hin as (pre & post & E & Hpre).
    intros c' Hc' Hk.
    apply (Permutation_in c' Pc) in Hc'. rewrite E in Hc', Sc.
    apply in_app_or in Hc'. destruct Hc' as [Hc'|[<-|Hc']].
    + exfalso. now apply (Hpre c').
    + destruct (confidence_position_le_total c c); assumption.
    + clear - Sc Hc'. induction pre as [|h pre IH]; simpl in Sc.
      * apply StronglySorted_inv in Sc. destruct Sc as [_ F].
        rewrite Forall_forall in F. auto.
      * apply StronglySorted_inv in Sc. tauto.
  - pose proof (sort_by_sorted position_le position_le_total
                  position_le_trans
                  (kept_loop [] (sort_by confidence_position_le cands))) as S.
    eapply StronglySorted_ind with
      (P := StronglySorted (fun a b => position a <= position b)) in S.
    + exact S.
    + constructor.
    + intros a l _ IH F. constructor; [assumption|].
      eapply Forall_impl; [|exact F]. intros b Hb. now apply Nat.leb_le.
Qed.

Lemma outline_in_document_order_sample :
  exists cands kept,
    extract_candidates sample_toc = Ok cands /\
    outline sample_toc_document = map to_heading kept /\
    (forall c, In c kept ->
       In c cands /\
       forall c', In c' cands -> candidate_key c' = candidate_key c ->
                  confidence_position_le c c' = true) /\
    StronglySorted (fun a b => position a <= position b) kept.
Proof.
  apply (outline_in_document_order sample_toc sample_toc_document).
  vm_compute. reflexivity.
Defined.

(** ** Runs of characters *)

Lemma take_drop p s : takewhile p s ++ dropwhile p s = s.
Proof.
  induction s as [|c s IH]; simpl; [reflexivity|].
  destruct (p c); simpl; [now rewrite IH | reflexivity].
Qed.

Lemma takewhile_all p s : forallb p (takewhile p s) = true.
Proof.
  induction s as [|c s IH]; simpl; [reflexivity|].
  destruct (p c) eqn:E; simpl; [now rewrite E | reflexivity].
Qed.

Lemma dropwhile_head p s c r : dropwhile p s = c :: r -> p c = false.
Proof.
  induction s as [|x s IH]; simpl; [discriminate|].
  destruct (p x) eqn:E; [assumption | now intros [= <- _]].
Qed.

Lemma take_drop_stop p d c r :
  forallb p d = true -> p c = false ->
  takewhile p (d ++ c :: r) = d /\ dropwhile p (d ++ c :: r) = c :: r.
Proof.
  intros Hd Hc. induction d as [|x d IH]; simpl in *.
  - now rewrite Hc.
  - apply andb_true_iff in Hd. destruct Hd as [-> Hd].
    destruct (IH Hd) as [-> ->]. auto.
Qed.

Lemma take_drop_end p d :
  forallb p d = true -> takewhile p d = d /\ dropwhile p d = [].
Proof.
  intros Hd. induction d as [|x d IH]; simpl in *; [auto|].
  apply andb_true_iff in Hd. destruct Hd as [-> Hd].
  destruct (IH Hd) as [-> ->]. auto.
Qed.

Lemma after_prefix_app p s r : after_prefix p s = Some r <-> s = p ++ r.
Proof.
  revert s. induction p as [|x p IH]; intros s; simpl.
  - split; congruence.
  - destruct s as [|y s]; [split; discriminate|].
    destruct (Ascii.eqb_spec x y) as [->|N].
    + rewrite IH. split; [now intros -> | now intros [= ->]].
    + split; [discriminate | intros E; simpl in E; congruence].
Qed.

(** ** C4: the title *)

Lemma numbered_prefix_matches line :
  matches [Plus is_decimal; Lit (lit ".")] line = true <->
  numbered_prefix line.
Proof.
  unfold matches, numbered_prefix. cbn [run]. split.
  - intros H.
    destruct (takewhile is_decimal line) as [|c d] eqn:Et; [discriminate|].
    destruct (after_prefix (lit ".") (dropwhile is_decimal line)) as [r|]
      eqn:Ed; [|discriminate].
    apply after_prefix_app in Ed.
    exists (c :: d), r. split; [discriminate|]. split.
    + rewrite <- Et. apply takewhile_all.
    + rewrite <- Et. rewrite <- (take_drop is_decimal line) at 1.
      now rewrite Ed.
  - intros (d & r & Hn & Hd & ->).
    destruct (take_drop_stop is_decimal d "." r Hd eq_refl) as [-> ->].
    destruct d; [congruence | reflexivity].
Qed.

Lemma title_line_spec line :
  title_line line = true <-> qualifies_as_title line.
Proof.
  unfold title_line, qualifies_as_title.
  rewrite !andb_true_iff, !negb_true_iff, Nat.ltb_lt.
  rewrite <- numbered_prefix_matches.
  destruct (matches [Plus is_decimal; Lit (lit ".")] line);
    intuition congruence.
Qed.

Lemma find_first {A} (f : A -> bool) l k x :
  nth_error l k = Some x -> f x = true ->
  (forall j y, j < k -> nth_error l j = Some y -> f y = false) ->
  find f l = Some x.
Proof.
  revert k. induction l as [|a l IH]; intros [|k]; simpl; try discriminate.
  - now intros [= ->] ->.
  - intros Hk Hx Hlt. rewrite (Hlt 0 a) by (simpl; auto; lia).
    apply (IH k); auto. intros j y Hj. apply (Hlt (S j)). lia.
Qed.

Lemma find_nowhere {A} (f : A -> bool) l :
  (forall j y, nth_error l j = Some y -> f y = false) -> find f l = None.
Proof.
  induction l as [|a l IH]; intros H; simpl; [reflexivity|].
  rewrite (H 0 a eq_refl). apply IH. intros j. apply (H (S j)).
Qed.

(** C4, as the code has it: an empty outline gives "Unknown Document"
    whatever the lines are; otherwise the title is the first of the first
    ten lines that qualifies (longer than 10 characters, no numbered
    prefix, not noise, not starting with "page "), and the text of the
    first heading when none of them qualifies. *)
Theorem title_resolution (pdf_text : str) (doc : document) :
  extract_headings pdf_text = Ok doc ->
  (outline doc = [] -> title doc = lit "Unknown Document") /\
  (outline doc <> [] ->
     forall k line,
       k < 10 -> nth_error (init_lines pdf_text) k = Some line ->
       qualifies_as_title line ->
       (forall j l, j < k -> nth_error (init_lines pdf_text) j = Some l ->
                    ~ qualifies_as_title l) ->
       title doc = line) /\
  (forall h rest,
     outline doc = h :: rest ->
     (forall j l, j < 10 -> nth_error (init_lines pdf_text) j = Some l ->
                  ~ qualifies_as_title l) ->
     title doc = h_text h).
Proof.
  intros H. apply extract_headings_Ok in H.
  destruct H as (cands & _ & _ & ->).
  generalize (init_lines pdf_text) as lines. intros lines.
  unfold _determine_document_title.
  split; [|split].
  - now intros ->.
  - intros Hne k line Hk Hnth Hq Hbefore.
    destruct (outline doc) as [|h rest]; [congruence|]. simpl isnil. cbv iota.
    rewrite (find_first title_line (firstn 10 lines) k line).
    + reflexivity.
    + rewrite nth_error_firstn.
      destruct (Nat.ltb_spec k 10); [assumption | lia].
    + now apply title_line_spec.
    + intros j y Hj Hy. rewrite nth_error_firstn in Hy.
      destruct (Nat.ltb_spec j 10); [|discriminate].
      destruct (title_line y) eqn:E; [|reflexivity].
      apply title_line_spec in E. now apply Hbefore in Hy.
  - intros h rest -> Hnone. simpl isnil. cbv iota.
    rewrite find_nowhere; [reflexivity|].
    intros j y Hy. rewrite nth_error_firstn in Hy.
    destruct (Nat.ltb_spec j 10); [|discriminate].
    destruct (title_line y) eqn:E; [|reflexivity].
    apply title_line_spec in E. now apply Hnone in Hy.
Qed.

Lemma title_resolution_sample :
  (outline sample_toc_document = [] ->
   title sample_toc_document = lit "Unknown Document") /\
  (outline sample_toc_document <> [] ->
     forall k line,
       k < 10 -> nth_error (init_lines sample_toc) k = Some line ->
       qualifies_as_title line ->
       (forall j l, j < k -> nth_error (init_lines sample_toc) j = Some l ->
                    ~ qualifies_as_title l) ->
       title sample_toc_document = line) /\
  (forall h rest,
     outline sample_toc_document = h :: rest ->
     (forall j l, j < 10 -> nth_error (init_lines sample_toc) j = Some l ->
                  ~ qualifies_as_title l) ->
     title sample_toc_document = h_text h).
Proof.
  apply (title_resolution sample_toc sample_toc_document).
  vm_compute. reflexivity.
Defined.

(** C4 as stated fails: the only line of [title_only] qualifies as a title
    and the outline is empty, yet the title is "Unknown Document". *)
Lemma title_of_empty_outline :
  exists doc line,
    extract_headings title_only = Ok doc /\
    outline doc = [] /\
    nth_error (init_lines title_only) 0 = Some line /\
    title_line line = true /\
    title doc = lit "Unknown Document" /\
    title doc <> line.
Proof.
  eexists. eexists.
  split; [vm_compute; reflexivity|].
  split; [reflexivity|].
  split; [vm_compute; reflexivity|].
  split; [vm_compute; reflexivity|].
  split; [reflexivity|].
  vm_compute. discriminate.
Qed.

(** ** C6: the context score *)

Lemma getitem_Some {A} (l : list A) i :
  i < length l -> exists a, nth_error l i = Some a /\ getitem l i = Ok a.
Proof.
  intros H. unfold getitem.
  destruct (nth_error l i) as [a|] eqn:E; [eauto|].
  apply nth_error_None in E. lia.
Qed.

Lemma previous_line_score lines i :
  i < length lines ->
  exists n,
    (if 0 <? i then
       prev_line <- getitem lines (i - 1) ;;
       let prev_line := strip prev_line in
       Ok (if (length prev_line <? 20) || isnil prev_line then 1 else 0)
     else Ok 0) = Ok n /\
    (n = 0 \/ n = 1) /\ (n = 1 <-> short_previous_line lines i).
Proof.
  intros Hi. unfold short_previous_line.
  destruct (Nat.ltb_spec 0 i) as [Hpos|Hzero].
  - destruct (getitem_Some lines (i - 1)) as (prev & Hn & ->); [lia|].
    simpl. eexists. split; [reflexivity|].
    destruct (Nat.ltb_spec (length (strip prev)) 20) as [Hs|Hl]; simpl.
    + split; [now right|]. split; [|reflexivity].
      intros _. exists prev. auto.
    + destruct (strip prev) eqn:E; simpl in *; [lia|].
      split; [now left|]. split; [discriminate|].
      intros (p & _ & Hp & Hlen). rewrite Hn in Hp.
      injection Hp as <-. rewrite E in Hlen. simpl in Hlen. lia.
  - exists 0. split; [reflexivity|]. split; [now left|].
    split; [discriminate|]. intros (p & Hp & _). lia.
Qed.

Lemma next_line_score lines i :
  i < length lines ->
  exists n,
    (if i <? length lines - 1 then
       next_line <- getitem lines (i + 1) ;;
       let next_line := strip next_line in
       Ok (match next_line with
           | [] => 1
           | c :: _ => if is_upper c then 1 else 0
           end)
     else Ok 0) = Ok n /\
    (n = 0 \/ n = 1) /\ (n = 1 <-> capitalised_next_line lines i).
Proof.
  intros Hi. unfold capitalised_next_line.
  destruct (Nat.ltb_spec i (length lines - 1)) as [Hlt|Hlast].
  - destruct (getitem_Some lines (i + 1)) as (next & Hn & ->); [lia|].
    simpl. eexists. split; [reflexivity|].
    destruct (strip next) as [|c r] eqn:E.
    + split; [now right|]. split; [|reflexivity].
      intros _. exists next. auto.
    + destruct (is_upper c) eqn:Eu.
      * split; [now right|]. split; [|reflexivity].
        intros _. exists next. split; [assumption|]. right. eauto.
      * split; [now left|]. split; [discriminate|].
        intros (nx & Hnx & Hcap). rewrite Hn in Hnx. injection Hnx as <-.
        rewrite E in Hcap.
        destruct Hcap as [|(c' & r' & [= <- <-] & Hup)]; congruence.
  - exists 0. split; [reflexivity|]. split; [now left|].
    split; [discriminate|]. intros (nx & Hnx & _).
    assert (nth_error lines (i + 1) = None) by (apply nth_error_None; lia).
    congruence.
Qed.

(** The check returns on every index of the lines, and accepts only a
    plausible text. *)
Lemma is_valid_heading_total (lines : list str) (text : str) (i : nat) :
  i < length lines ->
  exists ok,
    _is_valid_heading lines text i = Ok ok /\
    (ok = true -> plausible_text text).
Proof.
  intros Hi. unfold _is_valid_heading, plausible_text.
  destruct (previous_line_score lines i Hi) as (a & Ea & _).
  destruct (next_line_score lines i Hi) as (b & Eb & _).
  cbv zeta in Ea, Eb |- *. rewrite Ea, Eb. clear Ea Eb.
  set (special := count _ text).
  destruct (isnil text || (length text <? 3) || (200 <? length text)) eqn:Elen;
    [exists false; split; [reflexivity | discriminate]|].
  rewrite !orb_false_iff, !Nat.ltb_ge in Elen. destruct Elen as [[_ H3] H200].
  destruct (isdigit text) eqn:Edig;
    [exists false; split; [reflexivity | discriminate]|].
  destruct (Nat.ltb_spec (3 * length text) (10 * special)) as [Hsp|Hsp];
    [exists false; split; [reflexivity | discriminate]|].
  cbn [bind]. eexists. split; [reflexivity|]. auto.
Qed.

(** C6, as the code has it: a neighbouring line scores only when it exists.
    A text that passes the checks on its own (3 to 200 characters, not
    purely numeric, at most 30% special characters) is accepted if and only
    if there is a previous line shorter than 20 characters, or there is a
    next line that starts with an uppercase letter; nothing is accepted
    otherwise, and the check never raises on an index of the lines. *)
Theorem context_score_acceptance (lines : list str) (text : str) (i : nat) :
  i < length lines ->
  exists ok,
    _is_valid_heading lines text i = Ok ok /\
    (ok = true <->
     plausible_text text /\
     (short_previous_line lines i \/ capitalised_next_line lines i)).
Proof.
  intros Hi. unfold _is_valid_heading, plausible_text.
  destruct (previous_line_score lines i Hi) as (a & Ea & Ha & Hprev).
  destruct (next_line_score lines i Hi) as (b & Eb & Hb & Hnext).
  cbv zeta in Ea, Eb |- *. rewrite Ea, Eb. clear Ea Eb.
  set (special := count _ text).
  destruct (isnil text || (length text <? 3) || (200 <? length text)) eqn:Elen.
  { exists false. split; [reflexivity|]. split; [discriminate|].
    intros [(Hl & _) _]. exfalso.
    rewrite !orb_true_iff, !Nat.ltb_lt in Elen.
    destruct Elen as [[E|E]|E]; try lia.
    destruct text; simpl in *; [lia | discriminate]. }
  rewrite !orb_false_iff, !Nat.ltb_ge in Elen. destruct Elen as [[_ H3] H200].
  destruct (isdigit text) eqn:Edig.
  { exists false. split; [reflexivity|]. split; [discriminate|].
    intros [(_ & Hd & _) _]. discriminate. }
  destruct (Nat.ltb_spec (3 * length text) (10 * special)) as [Hsp|Hsp].
  { exists false. split; [reflexivity|]. split; [discriminate|].
    intros [(_ & _ & Hs) _]. lia. }
  cbn [bind]. eexists. split; [reflexivity|].
  rewrite <- Hprev, <- Hnext.
  split.
  - intros Hscore. apply Nat.leb_le in Hscore. split; [auto|]. lia.
  - intros [_ Hscore]. apply Nat.leb_le. lia.
Qed.

Lemma context_score_acceptance_sample :
  exists ok,
    _is_valid_heading (init_lines sample_toc) (lit "Introduction 5") 1 = Ok ok /\
    (ok = true <->
     plausible_text (lit "Introduction 5") /\
     (short_previous_line (init_lines sample_toc) 1 \/
      capitalised_next_line (init_lines sample_toc) 1)).
Proof.
  apply (context_score_acceptance (init_lines sample_toc)
           (lit "Introduction 5") 1).
  vm_compute. lia.
Defined.

(** C6 as stated fails: on a document of one line there is neither a
    previous nor a next line, the score is 0 and the plausible text of the
    only line is refused; the outline stays empty. *)
Lemma single_line_document_rejected :
  _is_valid_heading [lit "1. Introduction"] (lit "Introduction") 0 = Ok false /\
  extract_headings (lit "1. Introduction")
  = Ok (mkDocument (lit "Unknown Document") []).
Proof. split; vm_compute; reflexivity. Qed.

(** ** C5: cleaning a heading text *)

Lemma collapse_single_spaced b s : single_spaced b (collapse_spaces b s).
Proof.
  revert b. induction s as [|c s IH]; intros b; simpl; [exact I|].
  destruct (is_space c) eqn:E.
  - destruct b; [apply IH|]. simpl.
    change (is_space " ") with true. cbv iota. auto.
  - simpl. rewrite E. apply IH.
Qed.

Lemma single_spaced_collapse b s :
  single_spaced b s -> collapse_spaces b s = s.
Proof.
  revert b. induction s as [|c s IH]; intros b; simpl; [reflexivity|].
  destruct (is_space c).
  - intros (-> & -> & H). now rewrite IH.
  - intros H. now rewrite IH.
Qed.

Lemma single_spaced_weaken b s : single_spaced b s -> single_spaced false s.
Proof.
  destruct s as [|c s]; simpl; [auto|].
  destruct (is_space c); [intros (? & ? & ?); auto | auto].
Qed.

Lemma single_spaced_prefix b s t :
  single_spaced b (s ++ t) -> single_spaced b s.
Proof.
  revert b. induction s as [|c s IH]; intros b; simpl; [auto|].
  destruct (is_space c); [intros (? & ? & ?); eauto | eauto].
Qed.

Lemma single_spaced_cut b s :
  single_spaced b s -> single_spaced b (cut_dots_number s).
Proof.
  revert b. induction s as [|c s IH]; intros b.
  - simpl. now destruct (dots_number []).
  - intros H. simpl. destruct (dots_number (c :: s)); [exact I|].
    simpl in *. destruct (is_space c); [destruct H as (? & ? & ?); auto | auto].
Qed.

Lemma single_spaced_lstrip s :
  single_spaced false s -> single_spaced false (lstrip s).
Proof.
  unfold lstrip. destruct s as [|c s]; simpl; [auto|].
  destruct (is_space c) eqn:E; [|simpl; now rewrite E].
  intros (_ & _ & H). destruct s as [|d s]; simpl in *; [exact I|].
  destruct (is_space d) eqn:Ed; [destruct H as (_ & ? & _); discriminate|].
  simpl. now rewrite Ed.
Qed.

Lemma rstrip_prefix s : exists t, s = rstrip s ++ t.
Proof.
  unfold rstrip. exists (rev (takewhile is_space (rev s))).
  rewrite <- rev_app_distr, take_drop. now rewrite rev_involutive.
Qed.

Lemma single_spaced_strip s :
  single_spaced false s -> single_spaced false (strip s).
Proof.
  intros H. apply single_spaced_lstrip in H. unfold strip.
  destruct (rstrip_prefix (lstrip s)) as (t & E).
  rewrite E in H. now apply single_spaced_prefix in H.
Qed.

Lemma clean_single_spaced x : single_spaced false (_clean_heading_text x).
Proof.
  unfold _clean_heading_text.
  apply single_spaced_strip, single_spaced_cut, collapse_single_spaced.
Qed.

Lemma dropwhile_idem p s : dropwhile p (dropwhile p s) = dropwhile p s.
Proof.
  induction s as [|c s IH]; simpl; [reflexivity|].
  destruct (p c) eqn:E; [assumption | simpl; now rewrite E].
Qed.

Lemma dropwhile_stuck p c r : p c = false -> dropwhile p (c :: r) = c :: r.
Proof. intros E. simpl. now rewrite E. Qed.

Lemma strip_idem s : strip (strip s) = strip s.
Proof.
  unfold strip.
  assert (L : lstrip (rstrip (lstrip s)) = rstrip (lstrip s)).
  { destruct (rstrip_prefix (lstrip s)) as (t & E).
    destruct (rstrip (lstrip s)) as [|c r] eqn:Er; [reflexivity|].
    unfold lstrip in *. simpl in E.
    apply dropwhile_head in E. now apply dropwhile_stuck. }
  rewrite L. unfold rstrip.
  now rewrite rev_involutive, dropwhile_idem.
Qed.

Lemma dropwhile_length p s : length (dropwhile p s) <= length s.
Proof.
  induction s as [|c s IH]; simpl; [lia|]. destruct (p c); simpl; lia.
Qed.

Lemma strip_length s : length (strip s) <= length s.
Proof.
  unfold strip, rstrip, lstrip. rewrite length_rev.
  etransitivity; [apply dropwhile_length|]. rewrite length_rev.
  apply dropwhile_length.
Qed.

Lemma cut_length s : length (cut_dots_number s) <= length s.
Proof.
  induction s as [|c s IH]; simpl.
  - destruct (dots_number []); simpl; lia.
  - destruct (dots_number (c :: s)); simpl; lia.
Qed.

Lemma cut_same_length s :
  length (cut_dots_number s) = length s -> cut_dots_number s = s.
Proof.
  induction s as [|c s IH]; simpl.
  - now destruct (dots_number []).
  - destruct (dots_number (c :: s)); simpl; [discriminate|].
    intros [= H]. now rewrite IH.
Qed.

(** The substitution leaves a text alone exactly when none of its suffixes
    is a run of dots followed by an optional number. *)
Lemma cut_fixpoint s :
  cut_dots_number s = s <->
  forall a t, s = a ++ t -> dots_number t = false.
Proof.
  induction s as [|c s IH].
  - split.
    + intros _ a t E. symmetry in E. apply app_eq_nil in E.
      destruct E as [_ ->]. reflexivity.
    + intros _. reflexivity.
  - simpl. split.
    + intros H a t E.
      destruct (dots_number (c :: s)) eqn:D; [discriminate|].
      injection H as H.
      destruct a as [|x a]; simpl in E; [now subst|].
      injection E as _ E. apply IH in E; assumption.
    + intros H. rewrite (H [] (c :: s) eq_refl). f_equal. apply IH.
      intros a t ->. apply (H (c :: a)). reflexivity.
Qed.

(** C5, as the code has it: cleaning a cleaned text changes nothing exactly
    when the cleaned text no longer ends in dots followed by an optional
    number; the whitespace collapsing and the trimming are idempotent, the
    removal of the trailing dots is not. *)
Theorem clean_twice (x : str) :
  _clean_heading_text (_clean_heading_text x) = _clean_heading_text x <->
  (forall a t, _clean_heading_text x = a ++ t -> dots_number t = false).
Proof.
  rewrite <- cut_fixpoint.
  assert (E : _clean_heading_text (_clean_heading_text x)
              = strip (cut_dots_number (_clean_heading_text x))).
  { unfold _clean_heading_text at 1.
    now rewrite (single_spaced_collapse false _ (clean_single_spaced x)). }
  rewrite E. split.
  - intros H. apply cut_same_length.
    pose proof (strip_length (cut_dots_number (_clean_heading_text x))).
    pose proof (cut_length (_clean_heading_text x)).
    rewrite H in *. lia.
  - intros ->. unfold _clean_heading_text. apply strip_idem.
Qed.

Lemma clean_twice_sample :
  _clean_heading_text (_clean_heading_text (lit "Scope  and   Goals ... 12"))
  = _clean_heading_text (lit "Scope  and   Goals ... 12") <->
  (forall a t, _clean_heading_text (lit "Scope  and   Goals ... 12") = a ++ t ->
               dots_number t = false).
Proof. apply (clean_twice (lit "Scope  and   Goals ... 12")). Defined.

(** C5 as stated fails: cleaning "a.1." leaves "a.1", and cleaning that
    leaves "a". *)
Lemma clean_not_idempotent :
  _clean_heading_text (lit "a.1.") = lit "a.1" /\
  _clean_heading_text (_clean_heading_text (lit "a.1.")) = lit "a" /\
  _clean_heading_text (_clean_heading_text (lit "a.1."))
  <> _clean_heading_text (lit "a.1.").
Proof.
  split; [vm_compute; reflexivity|].
  split; [vm_compute; reflexivity|].
  vm_compute. discriminate.
Qed.

(** ** The detector loops *)

Lemma for_enumerate_total {A} (body : nat -> str -> result (list A)) lines i :
  (forall k line, nth_error lines k = Some line ->
                  exists out, body (i + k) line = Ok out) ->
  exists cs, for_enumerate body i lines = Ok cs.
Proof.
  revert i. induction lines as [|l lines IH]; intros i H; simpl; [eauto|].
  destruct (H 0 l eq_refl) as (out & E).
  rewrite Nat.add_0_r in E. rewrite E. simpl.
  destruct (IH (S i)) as (cs & ->).
  - intros k line Hk. rewrite Nat.add_succ_comm. now apply (H (S k)).
  - simpl. eauto.
Qed.

Lemma for_enumerate_In {A} (body : nat -> str -> result (list A))
    lines i cs c :
  for_enumerate body i lines = Ok cs -> In c cs ->
  exists k line out,
    nth_error lines k = Some line /\ body (i + k) line = Ok out /\ In c out.
Proof.
  revert i cs. induction lines as [|l lines IH]; intros i cs; simpl.
  - intros [= <-] [].
  - intros H Hc. inv_bind H. inv_bind H. injection H as <-.
    apply in_app_or in Hc. destruct Hc as [Hc|Hc].
    + exists 0, l, v. rewrite Nat.add_0_r. auto.
    + destruct (IH _ _ Hv0 Hc) as (k & line & out & Hk & Hb & Ho).
      exists (S k), line, out. rewrite <- Nat.add_succ_comm. auto.
Qed.

Lemma numbered_body_total lines ltp i line :
  i < length lines -> exists out, numbered_body lines ltp i line = Ok out.
Proof.
  intros Hi. unfold numbered_body.
  destruct (_is_noise_line line); [eauto|].
  destruct (main_match line) as [[num g2]|].
  - destruct (is_valid_heading_total lines (_clean_heading_text g2) i Hi)
      as (ok & -> & _). simpl. eauto.
  - destruct (sub_match line) as [[num g2]|]; [|eauto].
    destruct (is_valid_heading_total lines (_clean_heading_text g2) i Hi)
      as (ok & -> & _). simpl. eauto.
Qed.

(** What a candidate of the numbered detector is made of. *)
Lemma numbered_body_In lines ltp i line out c :
  numbered_body lines ltp i line = Ok out -> In c out ->
  _is_noise_line line = false /\
  position c = i /\ page c = page_get ltp i /\
  exists num g2,
    _is_valid_heading lines (_clean_heading_text g2) i = Ok true /\
    ((main_match line = Some (num, g2) /\
      text c = num ++ lit ". " ++ _clean_heading_text g2 /\
      level c = H1 /\ confidence c = 9%Z) \/
     (sub_match line = Some (num, g2) /\
      text c = num ++ lit " " ++ _clean_heading_text g2 /\
      level c = H2 /\ confidence c = 8%Z)).
Proof.
  unfold numbered_body.
  destruct (_is_noise_line line); [intros [= <-] []|].
  destruct (main_match line) as [[num g2]|].
  - intros H Hc. inv_bind H. injection H as <-.
    destruct v; [|destruct Hc]. destruct Hc as [<-|[]].
    split; [reflexivity|]. simpl. repeat split.
    exists num, g2. split; [assumption|]. left. auto.
  - destruct (sub_match line) as [[num g2]|]; [|intros [= <-] []].
    intros H Hc. inv_bind H. injection H as <-.
    destruct v; [|destruct Hc]. destruct Hc as [<-|[]].
    split; [reflexivity|]. simpl. repeat split.
    exists num, g2. split; [assumption|]. right. auto.
Qed.

Lemma structural_scan_total lines ltp i line line_lower patterns :
  i < length lines ->
  exists out,
    structural_scan lines ltp i line line_lower patterns = Ok out.
Proof.
  intros Hi. induction patterns as [|[pattern lvl] more IH]; simpl; [eauto|].
  destruct (matches pattern line_lower); [|assumption].
  destruct (is_valid_heading_total lines line i Hi) as (ok & -> & _).
  simpl. destruct ok; eauto.
Qed.

(** What a candidate of the structural detector is made of. *)
Lemma structural_scan_In lines ltp i line line_lower patterns out c :
  structural_scan lines ltp i line line_lower patterns = Ok out ->
  In c out ->
  position c = i /\ page c = page_get ltp i /\ text c = line /\
  confidence c = 6%Z /\
  _is_valid_heading lines line i = Ok true /\
  exists pattern,
    In (pattern, level c) patterns /\ matches pattern line_lower = true.
Proof.
  induction patterns as [|[pattern lvl] more IH]; simpl.
  - intros [= <-] [].
  - destruct (matches pattern line_lower) eqn:M.
    + intros H Hc. inv_bind H. destruct v.
      * injection H as <-. destruct Hc as [<-|[]]. simpl.
        repeat split; [assumption|]. exists pattern. auto.
      * destruct (IH H Hc) as (? & ? & ? & ? & ? & p & ? & ?).
        repeat split; try assumption. exists p. auto.
    + intros H Hc.
      destruct (IH H Hc) as (? & ? & ? & ? & ? & p & ? & ?).
      repeat split; try assumption. exists p. auto.
Qed.

Lemma numbered_total lines ltp :
  exists cs, _extract_numbered_headings lines ltp = Ok cs.
Proof.
  apply for_enumerate_total. intros k line Hk.
  apply numbered_body_total. apply nth_error_Some. simpl. congruence.
Qed.

Lemma structural_total lines ltp :
  exists cs, _extract_structural_headings lines ltp = Ok cs.
Proof.
  apply for_enumerate_total. intros k line Hk.
  apply structural_scan_total. apply nth_error_Some. simpl. congruence.
Qed.

(** ** C8: noise lines *)

Lemma is_space_lower c : is_space (lower_char c) = is_space c.
Proof. destruct c as [[] [] [] [] [] [] [] []]; reflexivity. Qed.

Lemma dropwhile_space_lower s :
  dropwhile is_space (lower s) = lower (dropwhile is_space s).
Proof.
  induction s as [|c s IH]; simpl; [reflexivity|].
  rewrite is_space_lower. destruct (is_space c); [assumption | reflexivity].
Qed.

Lemma lower_rev s : lower (rev s) = rev (lower s).
Proof. apply map_rev. Qed.

Lemma strip_lower s : strip (lower s) = lower (strip s).
Proof.
  unfold strip, rstrip, lstrip.
  now rewrite dropwhile_space_lower, <- lower_rev, dropwhile_space_lower,
    lower_rev.
Qed.

Lemma init_lines_stripped pdf_text line :
  In line (init_lines pdf_text) -> strip line = line /\ line <> [].
Proof.
  unfold init_lines. rewrite filter_In, in_map_iff.
  intros [(x & <- & _) Hne]. split; [apply strip_idem|].
  destruct (strip x); [discriminate | discriminate].
Qed.

Lemma matches_Lit w p s :
  matches (Lit w :: p) s = true -> exists r, s = w ++ r.
Proof.
  unfold matches. cbn [run].
  destruct (after_prefix w s) as [r|] eqn:E; [|discriminate].
  apply after_prefix_app in E. eauto.
Qed.

(** No text is matched both by a structural pattern and by a noise
    pattern: the first three characters tell them apart. *)
Lemma structural_not_noise l pattern lvl :
  In (pattern, lvl) structural_patterns ->
  matches pattern l = true ->
  existsb (fun p => matches p l) noise_patterns = false.
Proof.
  unfold structural_patterns. intros Hin M. simpl in Hin.
  repeat (destruct Hin as [Hin|Hin];
          [injection Hin as <- <-;
           apply matches_Lit in M; destruct M as (r & ->);
           vm_compute; reflexivity|]).
  destruct Hin.
Qed.

(** C8: a line of the text that matches a noise pattern gets no candidate,
    neither from the numbered detector (which tests the line for noise
    first) nor from the structural detector (whose keywords no noise
    pattern matches); both detectors return. *)
Theorem noise_lines_give_no_heading (pdf_text : str) (line_to_page : list Z)
    (i : nat) (line : str) :
  nth_error (init_lines pdf_text) i = Some line ->
  _is_noise_line line = true ->
  exists numbered structural,
    _extract_numbered_headings (init_lines pdf_text) line_to_page
    = Ok numbered /\
    _extract_structural_headings (init_lines pdf_text) line_to_page
    = Ok structural /\
    forall c, In c (numbered ++ structural) -> position c <> i.
Proof.
  intros Hi Hnoise.
  destruct (numbered_total (init_lines pdf_text) line_to_page) as (ns & Hn).
  destruct (structural_total (init_lines pdf_text) line_to_page) as (ss & Hs).
  exists ns, ss. split; [assumption|]. split; [assumption|].
  intros c Hc Hpos. apply in_app_or in Hc. destruct Hc as [Hc|Hc].
  - destruct (for_enumerate_In _ _ _ _ _ Hn Hc) as (k & l & out & Hk & Hb & Ho).
    destruct (numbered_body_In _ _ _ _ _ _ Hb Ho) as (Hnn & Hp & _).
    simpl in Hp. assert (k = i) by congruence. subst k. congruence.
  - destruct (for_enumerate_In _ _ _ _ _ Hs Hc) as (k & l & out & Hk & Hb & Ho).
    destruct (structural_scan_In _ _ _ _ _ _ _ _ Hb Ho)
      as (Hp & _ & _ & _ & _ & pattern & Hin & M).
    simpl in Hp. assert (k = i) by congruence. subst k.
    assert (l = line) by congruence. subst l.
    apply nth_error_In in Hi. apply init_lines_stripped in Hi.
    destruct Hi as [Hstrip _].
    rewrite strip_lower, Hstrip in M.
    apply (structural_not_noise _ _ _ Hin) in M.
    unfold _is_noise_line in Hnoise. congruence.
Qed.

Lemma noise_lines_give_no_heading_sample :
  exists numbered structural,
    _extract_numbered_headings (init_lines sample_toc) [1; 1; 1]%Z
    = Ok numbered /\
    _extract_structural_headings (init_lines sample_toc) [1; 1; 1]%Z
    = Ok structural /\
    forall c, In c (numbered ++ structural) -> position c <> 2.
Proof.
  apply (noise_lines_give_no_heading sample_toc [1; 1; 1]%Z 2
           (lit "Page 1 of 10")); vm_compute; reflexivity.
Defined.

(** ** The table-of-contents detector *)

Lemma toc_scan_In i line out c :
  toc_scan i line toc_patterns = Ok out -> In c out ->
  exists num x pn,
    (toc_main_match line = Some (num, x, pn) \/
     toc_sub_match line = Some (num, x, pn)) /\
    level c = (if existsb (Ascii.eqb ".") num then H2 else H1) /\
    text c = num ++ lit " " ++ x /\
    int pn = Ok (page c) /\ position c = i /\ confidence c = 5%Z.
Proof.
  unfold toc_patterns. cbn [toc_scan].
  destruct (toc_main_match line) as [[[num x] pn]|] eqn:M1.
  - intros H Hc. inv_bind H. injection H as <-. destruct Hc as [<-|[]].
    exists num, x, pn. simpl. auto 10.
  - destruct (toc_sub_match line) as [[[num x] pn]|] eqn:M2.
    + intros H Hc. inv_bind H. injection H as <-. destruct Hc as [<-|[]].
      exists num, x, pn. simpl. auto 10.
    + intros [= <-] [].
Qed.

Lemma toc_flag_S b line lines n :
  toc_flag b (line :: lines) (S n) = toc_flag (toc_step b line) lines n.
Proof. reflexivity. Qed.

(** A candidate of the detector comes from a line reached with the flag
    set, that neither opens nor closes a table of contents. *)
Lemma toc_loop_In b i lines cs c :
  toc_loop b i lines = Ok cs -> In c cs ->
  exists k line out,
    nth_error lines k = Some line /\
    toc_flag b lines k = true /\
    opens_contents line = false /\ closes_contents line = false /\
    toc_scan (i + k) line toc_patterns = Ok out /\ In c out.
Proof.
  revert b i cs. induction lines as [|l lines IH]; intros b i cs.
  - simpl. intros [= <-] [].
  - cbn [toc_loop]. fold (opens_contents l). fold (closes_contents l).
    intros H Hc.
    assert (Next : forall b',
              toc_step b l = b' -> toc_loop b' (S i) lines = Ok cs ->
              exists k line out,
                nth_error (l :: lines) k = Some line /\
                toc_flag b (l :: lines) k = true /\
                opens_contents line = false /\ closes_contents line = false /\
                toc_scan (i + k) line toc_patterns = Ok out /\ In c out).
    { intros b' Eb H'.
      destruct (IH _ _ _ H' Hc) as (k & line & out & ? & ? & ? & ? & ? & ?).
      exists (S k), line, out. rewrite toc_flag_S, Eb.
      rewrite <- Nat.add_succ_comm. auto 10. }
    unfold toc_step in Next.
    destruct (opens_contents l) eqn:Eo; [now apply (Next true)|].
    destruct (b && closes_contents l) eqn:Ec; [now apply (Next false)|].
    inv_bind H. inv_bind H. injection H as <-.
    apply in_app_or in Hc. destruct Hc as [Hc|Hc].
    + destruct (b && negb (isnil l)) eqn:Eb;
        [|injection Hv as <-; destruct Hc].
      apply andb_true_iff in Eb. destruct Eb as [-> _]. simpl in Ec.
      exists 0, l, v. rewrite Nat.add_0_r. simpl. auto 10.
    + clear Next.
      destruct (IH _ _ _ Hv0 Hc) as (k & line & out & ? & ? & ? & ? & ? & ?).
      exists (S k), line, out. rewrite toc_flag_S. unfold toc_step.
      rewrite Eo, Ec. rewrite <- Nat.add_succ_comm. auto 10.
Qed.

Lemma space_not_decimal c : is_space c = true -> is_decimal c = false.
Proof. destruct c as [[] [] [] [] [] [] [] []]; vm_compute; congruence. Qed.

Lemma digits1_Some s d r :
  digits1 s = Some (d, r) ->
  d <> [] /\ forallb is_decimal d = true /\ s = d ++ r /\
  d = takewhile is_decimal s.
Proof.
  unfold digits1.
  destruct (takewhile is_decimal s) as [|c t] eqn:E; [discriminate|].
  intros [= <- <-]. split; [discriminate|]. split.
  - rewrite <- E. apply takewhile_all.
  - split; [|reflexivity]. rewrite <- E. symmetry. apply take_drop.
Qed.

Lemma rsplit_app p s : fst (rsplit p s) ++ snd (rsplit p s) = s.
Proof.
  unfold rsplit. simpl. rewrite <- rev_app_distr, take_drop.
  apply rev_involutive.
Qed.

Lemma rsplit_all p s : forallb p (snd (rsplit p s)) = true.
Proof.
  unfold rsplit. simpl. apply forallb_forall. intros c Hc.
  apply in_rev in Hc.
  pose proof (takewhile_all p (rev s)) as H.
  rewrite forallb_forall in H. auto.
Qed.

Lemma rev_head_all p (l : str) :
  forallb p l = true -> l <> [] -> exists c t, rev l = c :: t /\ p c = true.
Proof.
  intros Hall Hne. destruct (rev l) as [|c t] eqn:E.
  - exfalso. apply Hne. rewrite <- (rev_involutive l), E. reflexivity.
  - exists c, t. split; [reflexivity|].
    rewrite forallb_forall in Hall. apply Hall, in_rev. rewrite E. now left.
Qed.

Lemma takewhile_app_stuck p a b :
  dropwhile p a <> [] -> takewhile p (a ++ b) = takewhile p a.
Proof.
  induction a as [|c a IH]; simpl; [congruence|].
  destruct (p c); [intros H; now rewrite IH | reflexivity].
Qed.

Lemma dropwhile_app_stuck p a b :
  dropwhile p a <> [] -> dropwhile p (a ++ b) = dropwhile p a ++ b.
Proof.
  induction a as [|c a IH]; simpl; [congruence|].
  destruct (p c); [assumption | reflexivity].
Qed.

(** After leading spaces, the number that ends the text is the number
    that ends what follows the spaces, and the text is not all digits. *)
Lemma trailing_after_spaces s :
  takewhile is_space s <> [] ->
  trailing_number s = trailing_number (dropwhile is_space s) /\
  dropwhile is_decimal (rev s) <> [].
Proof.
  intros Hws. unfold trailing_number, rsplit. simpl.
  set (ws := takewhile is_space s) in *.
  set (r := dropwhile is_space s).
  assert (Es : rev s = rev r ++ rev ws).
  { rewrite <- rev_app_distr. unfold ws, r. now rewrite take_drop. }
  destruct (rev_head_all is_space ws (takewhile_all _ _) Hws)
    as (c & t & Ec & Hc).
  apply space_not_decimal in Hc.
  rewrite Es, Ec.
  rewrite <- (take_drop is_decimal (rev r)) at 1 3.
  rewrite <- app_assoc.
  destruct (dropwhile is_decimal (rev r)) as [|y ys] eqn:Ed.
  - simpl.
    destruct (take_drop_stop is_decimal (takewhile is_decimal (rev r)) c t
                (takewhile_all _ _) Hc) as [-> ->].
    split; [reflexivity | discriminate].
  - pose proof (dropwhile_head _ _ _ _ Ed) as Hy. simpl.
    destruct (take_drop_stop is_decimal (takewhile is_decimal (rev r)) y
                (ys ++ c :: t) (takewhile_all _ _) Hy) as [-> ->].
    split; [reflexivity | discriminate].
Qed.

Lemma trailing_number_suffix a s :
  dropwhile is_decimal (rev s) <> [] ->
  trailing_number (a ++ s) = trailing_number s.
Proof.
  intros H. unfold trailing_number, rsplit. simpl.
  now rewrite rev_app_distr, takewhile_app_stuck.
Qed.

Lemma toc_tail_Some s x d :
  toc_tail s = Some (x, d) ->
  x <> [] /\ d <> [] /\ d = trailing_number s /\
  dropwhile is_decimal (rev s) <> [].
Proof.
  unfold toc_tail.
  destruct (takewhile is_space s) as [|w0 ws] eqn:Ew; [discriminate|].
  assert (Hws : takewhile is_space s <> []) by (rewrite Ew; discriminate).
  destruct (trailing_after_spaces s Hws) as [Et Hnd].
  unfold trailing_number in *. rewrite Et.
  destruct (rsplit is_decimal (dropwhile is_space s)) as [xw d'].
  destruct (rsplit is_space xw) as [x' w]. simpl.
  destruct x' as [|? ?], w as [|? ?], d' as [|? ?]; try discriminate.
  - match goal with
    | |- context [if ?b then _ else _] => destruct b; [|discriminate]
    end.
    intros [= <- <-]. repeat split; try discriminate. assumption.
  - intros [= <- <-]. repeat split; try discriminate. assumption.
Qed.

(** What the two patterns of the detector capture. *)
Lemma toc_match_Some line num x pn :
  toc_main_match line = Some (num, x, pn) \/
  toc_sub_match line = Some (num, x, pn) ->
  num <> [] /\ x <> [] /\ pn <> [] /\ pn = trailing_number line.
Proof.
  intros [H|H].
  - unfold toc_main_match in H.
    destruct (digits1 line) as [[n r]|] eqn:D; [|discriminate].
    destruct r as [|c r]; [discriminate|].
    destruct (Ascii.eqb_spec c ".") as [->|N].
    + destruct (toc_tail r) as [[x' d]|] eqn:T; [|discriminate].
      injection H as <- <- <-.
      apply digits1_Some in D. destruct D as (Hn & _ & -> & _).
      apply toc_tail_Some in T. destruct T as (Hx & Hd & -> & Hs).
      repeat split; try assumption.
      change (n ++ "."%char :: r) with (n ++ ["."%char] ++ r).
      rewrite app_assoc. now rewrite trailing_number_suffix.
    + exfalso. destruct c as [[] [] [] [] [] [] [] []];
        try discriminate. now apply N.
  - unfold toc_sub_match in H.
    destruct (subnumber line) as [[n r]|] eqn:D; [|discriminate].
    destruct (toc_tail r) as [[x' d]|] eqn:T; [|discriminate].
    injection H as <- <- <-.
    apply toc_tail_Some in T. destruct T as (Hx & Hd & -> & Hs).
    unfold subnumber in D.
    destruct (digits1 line) as [[a r1]|] eqn:D1; [|discriminate].
    destruct r1 as [|c r1]; [discriminate|].
    destruct (Ascii.eqb_spec c ".") as [->|N].
    + destruct (digits1 r1) as [[b r2]|] eqn:D2; [|discriminate].
      injection D as <- <-.
      apply digits1_Some in D1. destruct D1 as (Ha & _ & -> & _).
      apply digits1_Some in D2. destruct D2 as (_ & _ & -> & _).
      repeat split; try assumption.
      * destruct a; [congruence | discriminate].
      * change (a ++ "."%char :: b ++ r2) with (a ++ ["."%char] ++ b ++ r2).
        rewrite !app_assoc. now rewrite trailing_number_suffix.
    + exfalso. destruct c as [[] [] [] [] [] [] [] []];
        try discriminate. now apply N.
Qed.

(** ** C9: pages and end of the table of contents *)

Lemma toc_flag_next b lines n l :
  nth_error lines n = Some l ->
  toc_flag b lines (S n) = toc_step (toc_flag b lines n) l.
Proof.
  revert b n. induction lines as [|x lines IH]; intros b [|n]; simpl;
    try discriminate.
  - now intros [= ->].
  - intros H. rewrite !toc_flag_S. now apply IH.
Qed.

Lemma toc_flag_stays_clear b lines n d :
  toc_flag b lines n = false ->
  (forall m lm, n <= m < n + d -> nth_error lines m = Some lm ->
                opens_contents lm = false) ->
  n + d <= length lines ->
  toc_flag b lines (n + d) = false.
Proof.
  intros H0 Hno. induction d as [|d IH]; intros Hlen.
  - now rewrite Nat.add_0_r.
  - destruct (nth_error lines (n + d)) as [l|] eqn:El.
    + rewrite Nat.add_succ_r, (toc_flag_next _ _ _ _ El).
      rewrite IH; [|intros m lm Hm; apply Hno; lia | lia].
      unfold toc_step. now rewrite (Hno (n + d) l) by (auto; lia).
    + apply nth_error_None in El. lia.
Qed.

Lemma toc_candidate_page lines toc c :
  _extract_toc_headings lines = Ok toc -> In c toc ->
  exists line x,
    nth_error lines (position c) = Some line /\
    int (trailing_number line) = Ok (page c) /\
    x <> [] /\ exists num, num <> [] /\ text c = num ++ lit " " ++ x.
Proof.
  intros H Hc. unfold _extract_toc_headings in H.
  destruct (toc_loop_In _ _ _ _ _ H Hc)
    as (k & line & out & Hk & _ & _ & _ & Hs & Ho).
  destruct (toc_scan_In _ _ _ _ Hs Ho)
    as (num & x & pn & M & _ & Ht & Hp & Hpos & _).
  apply toc_match_Some in M. destruct M as (Hn & Hx & _ & ->).
  exists line, x. simpl in Hpos. rewrite Hpos. eauto 10.
Qed.

Lemma toc_closed lines toc j k lj :
  _extract_toc_headings lines = Ok toc ->
  nth_error lines j = Some lj ->
  closes_contents lj = true -> opens_contents lj = false ->
  (forall m lm, j < m <= k -> nth_error lines m = Some lm ->
                opens_contents lm = false) ->
  forall c, In c toc -> ~ (j <= position c <= k).
Proof.
  intros H Hj Hclose Hopen Hquiet c Hc [Hlo Hhi].
  unfold _extract_toc_headings in H.
  destruct (toc_loop_In _ _ _ _ _ H Hc)
    as (p & line & out & Hp & Hflag & _ & Hnc & Hs & Ho).
  destruct (toc_scan_In _ _ _ _ Hs Ho) as (_ & _ & _ & _ & _ & _ & _ & Hpos & _).
  simpl in Hpos. rewrite Hpos in *.
  assert (Hlen : p < length lines) by (apply nth_error_Some; congruence).
  destruct (Nat.eq_dec p j) as [->|Hne]; [congruence|].
  assert (Hafter : toc_flag false lines (S j) = false).
  { rewrite (toc_flag_next _ _ _ _ Hj). unfold toc_step.
    rewrite Hopen, Hclose. now destruct (toc_flag false lines j). }
  pose proof (toc_flag_stays_clear false lines (S j) (p - S j) Hafter) as Hst.
  replace (S j + (p - S j)) with p in Hst by lia.
  rewrite Hst in Hflag; [discriminate | | lia].
  intros m lm Hm. apply Hquiet. lia.
Qed.

(** C9, as the code has it: the page of a candidate of the table-of-contents
    detector is the number that ends its line, whatever page is in effect;
    and after a line that closes the table of contents (it starts with
    "page " or is one of the three section names, case apart) without
    itself holding "table of contents", no line gives a candidate until a
    line holds "table of contents" again.  On the sample, the detector gives
    the one candidate H1 "1 Introduction" of page 5, on a line of page 1. *)
Theorem toc_pages_and_end (lines : list str) (toc : list candidate) :
  _extract_toc_headings lines = Ok toc ->
  (forall c, In c toc ->
     exists line, nth_error lines (position c) = Some line /\
                  int (trailing_number line) = Ok (page c)) /\
  (forall j k lj,
     nth_error lines j = Some lj ->
     closes_contents lj = true -> opens_contents lj = false ->
     (forall m lm, j < m <= k -> nth_error lines m = Some lm ->
                   opens_contents lm = false) ->
     forall c, In c toc -> ~ (j <= position c <= k)) /\
  _extract_toc_headings (init_lines sample_toc)
  = Ok [mkCandidate H1 (lit "1 Introduction") 5 1 5] /\
  _parse_page_info (init_lines sample_toc) = Ok [1; 1; 1]%Z /\
  extract_headings sample_toc = Ok sample_toc_document.
Proof.
  intros H. split; [|split].
  - intros c Hc.
    destruct (toc_candidate_page _ _ _ H Hc) as (line & _ & ? & ? & _).
    eauto.
  - intros j k lj. now apply toc_closed.
  - repeat split; vm_compute; reflexivity.
Qed.

Lemma toc_pages_and_end_sample :
  (forall c, In c [mkCandidate H1 (lit "1 Introduction") 5 1 5] ->
     exists line, nth_error (init_lines sample_toc) (position c) = Some line /\
                  int (trailing_number line) = Ok (page c)) /\
  (forall j k lj,
     nth_error (init_lines sample_toc) j = Some lj ->
     closes_contents lj = true -> opens_contents lj = false ->
     (forall m lm, j < m <= k -> nth_error (init_lines sample_toc) m = Some lm ->
                   opens_contents lm = false) ->
     forall c, In c [mkCandidate H1 (lit "1 Introduction") 5 1 5] ->
               ~ (j <= position c <= k)) /\
  _extract_toc_headings (init_lines sample_toc)
  = Ok [mkCandidate H1 (lit "1 Introduction") 5 1 5] /\
  _parse_page_info (init_lines sample_toc) = Ok [1; 1; 1]%Z /\
  extract_headings sample_toc = Ok sample_toc_document.
Proof.
  apply (toc_pages_and_end (init_lines sample_toc)).
  vm_compute. reflexivity.
Defined.

(** C9 as stated fails: the second line of [continued_toc] starts with
    "page " once lower-cased, yet the line after it is still read as an
    entry of the table of contents. *)
Lemma toc_continues_after_page_line :
  exists toc l1,
    _extract_toc_headings (init_lines continued_toc) = Ok toc /\
    nth_error (init_lines continued_toc) 1 = Some l1 /\
    startswith (lower l1) (lit "page ") = true /\
    In (mkCandidate H1 (lit "1 Intro") 5 2 5) toc.
Proof.
  eexists. eexists.
  split; [vm_compute; reflexivity|].
  split; [vm_compute; reflexivity|].
  split; [vm_compute; reflexivity|].
  left. reflexivity.
Qed.

(** ** C7: the length of a heading text *)

Lemma extract_candidates_Ok pdf_text cands :
  extract_candidates pdf_text = Ok cands ->
  exists line_to_page numbered structural toc,
    _parse_page_info (init_lines pdf_text) = Ok line_to_page /\
    _extract_numbered_headings (init_lines pdf_text) line_to_page
    = Ok numbered /\
    _extract_structural_headings (init_lines pdf_text) line_to_page
    = Ok structural /\
    _extract_toc_headings (init_lines pdf_text) = Ok toc /\
    cands = numbered ++ structural ++ toc.
Proof.
  unfold extract_candidates. intros H.
  inv_bind H. inv_bind H. inv_bind H. inv_bind H. injection H as <-.
  exists v, v0, v1, v2. auto.
Qed.

Lemma outline_from_candidates pdf_text doc h :
  extract_headings pdf_text = Ok doc -> In h (outline doc) ->
  exists cands c,
    extract_candidates pdf_text = Ok cands /\ In c cands /\ h = to_heading c.
Proof.
  intros H Hh. apply extract_headings_Ok in H.
  destruct H as (cands & Hc & Ho & _). rewrite Ho in Hh.
  apply in_map_iff in Hh. destruct Hh as (c & <- & Hin).
  exists cands, c. split; [assumption|]. split; [|reflexivity].
  apply (Permutation_in c (Permutation_sym (sort_by_perm position_le _)))
    in Hin.
  apply kept_loop_In in Hin. destruct Hin as [Hin _].
  now apply (Permutation_in c
               (Permutation_sym (sort_by_perm confidence_position_le _))).
Qed.

Lemma valid_heading_plausible lines text i :
  i < length lines -> _is_valid_heading lines text i = Ok true ->
  plausible_text text.
Proof.
  intros Hi H.
  destruct (is_valid_heading_total lines text i Hi) as (ok & E & Hok).
  rewrite E in H. injection H as ->. now apply Hok.
Qed.

Lemma numbered_candidate_text lines ltp numbered c :
  _extract_numbered_headings lines ltp = Ok numbered -> In c numbered ->
  exists num t,
    num <> [] /\
    (text c = num ++ lit ". " ++ t \/ text c = num ++ lit " " ++ t) /\
    3 <= length t <= 200.
Proof.
  intros H Hc.
  destruct (for_enumerate_In _ _ _ _ _ H Hc) as (k & l & out & Hk & Hb & Ho).
  destruct (numbered_body_In _ _ _ _ _ _ Hb Ho)
    as (_ & _ & _ & num & g2 & Hv & Hm).
  apply valid_heading_plausible in Hv;
    [|apply nth_error_Some; simpl; congruence].
  destruct Hv as (Hlen & _).
  exists num, (_clean_heading_text g2).
  destruct Hm as [(M & Ht & _)|(M & Ht & _)].
  - split; [|auto]. unfold main_match in M.
    destruct (digits1 l) as [[n r]|] eqn:D; [|discriminate].
    apply digits1_Some in D. destruct D as (Hn & _).
    destruct r as [|x r]; [discriminate|].
    destruct x as [[] [] [] [] [] [] [] []]; try discriminate.
    destruct (spaces_rest r); [|discriminate]. now injection M as <- _.
  - split; [|auto]. unfold sub_match in M.
    destruct (subnumber l) as [[n r]|] eqn:D; [|discriminate].
    destruct (spaces_rest r); [|discriminate]. injection M as <- _.
    unfold subnumber in D.
    destruct (digits1 l) as [[a r1]|]; [|discriminate].
    destruct r1 as [|x r1]; [discriminate|].
    destruct x as [[] [] [] [] [] [] [] []]; try discriminate.
    destruct (digits1 r1) as [[b r2]|]; [|discriminate].
    injection D as <- _. destruct a; discriminate.
Qed.

Lemma structural_candidate_text lines ltp structural c :
  _extract_structural_headings lines ltp = Ok structural ->
  In c structural -> 3 <= length (text c) <= 200.
Proof.
  intros H Hc.
  destruct (for_enumerate_In _ _ _ _ _ H Hc) as (k & l & out & Hk & Hb & Ho).
  destruct (structural_scan_In _ _ _ _ _ _ _ _ Hb Ho)
    as (_ & _ & -> & _ & Hv & _).
  apply valid_heading_plausible in Hv;
    [|apply nth_error_Some; simpl; congruence].
  now destruct Hv.
Qed.

(** The parts of a candidate of the numbered detector: the number and the
    remainder captured on its line, and the cleaned remainder, which is what
    the validity filter has measured. *)
Lemma numbered_candidate_parts lines ltp numbered c :
  _extract_numbered_headings lines ltp = Ok numbered -> In c numbered ->
  exists line num g2,
    nth_error lines (position c) = Some line /\
    ((main_match line = Some (num, g2) /\
      text c = num ++ lit ". " ++ _clean_heading_text g2) \/
     (sub_match line = Some (num, g2) /\
      text c = num ++ lit " " ++ _clean_heading_text g2)) /\
    3 <= length (_clean_heading_text g2) <= 200.
Proof.
  intros H Hc.
  destruct (for_enumerate_In _ _ _ _ _ H Hc) as (k & l & out & Hk & Hb & Ho).
  destruct (numbered_body_In _ _ _ _ _ _ Hb Ho)
    as (_ & Hpos & _ & num & g2 & Hv & Hm).
  apply valid_heading_plausible in Hv;
    [|apply nth_error_Some; simpl; congruence].
  destruct Hv as (Hlen & _). simpl in Hpos.
  exists l, num, g2. rewrite Hpos. split; [assumption|]. split; [|assumption].
  destruct Hm as [(M & Ht & _)|(M & Ht & _)]; auto.
Qed.

(** C7, as the code has it: every heading text has at least 3 characters;
    the text of a heading of the structural detector has at most 200; the
    text of a heading of the numbered detector is the number captured on
    its line, a separator and the cleaned remainder of that line, and it is
    this cleaned remainder that has 3 to 200 characters; the text of a
    heading of the table-of-contents detector, which is not filtered, has
    no upper bound. *)
Theorem heading_text_bounds (pdf_text : str) (doc : document) (h : heading) :
  extract_headings pdf_text = Ok doc -> In h (outline doc) ->
  exists line_to_page numbered structural toc c,
    _parse_page_info (init_lines pdf_text) = Ok line_to_page /\
    _extract_numbered_headings (init_lines pdf_text) line_to_page
    = Ok numbered /\
    _extract_structural_headings (init_lines pdf_text) line_to_page
    = Ok structural /\
    _extract_toc_headings (init_lines pdf_text) = Ok toc /\
    h = to_heading c /\
    3 <= length (h_text h) /\
    ((In c numbered /\
      exists line num g2,
        nth_error (init_lines pdf_text) (position c) = Some line /\
        ((main_match line = Some (num, g2) /\
          h_text h = num ++ lit ". " ++ _clean_heading_text g2) \/
         (sub_match line = Some (num, g2) /\
          h_text h = num ++ lit " " ++ _clean_heading_text g2)) /\
        3 <= length (_clean_heading_text g2) <= 200) \/
     (In c structural /\ length (h_text h) <= 200) \/
     In c toc).
Proof.
  intros H Hh.
  destruct (outline_from_candidates _ _ _ H Hh) as (cands & c & Hc & Hin & ->).
  apply extract_candidates_Ok in Hc.
  destruct Hc as (ltp & ns & ss & ts & Hp & Hn & Hs & Ht & ->).
  exists ltp, ns, ss, ts, c.
  repeat (split; [assumption || reflexivity|]). simpl.
  apply in_app_or in Hin. destruct Hin as [Hin|Hin];
    [|apply in_app_or in Hin; destruct Hin as [Hin|Hin]].
  - destruct (numbered_candidate_parts _ _ _ _ Hn Hin)
      as (line & num & g2 & Hline & Htext & Hlen).
    split.
    + destruct Htext as [(_ & ->)|(_ & ->)]; rewrite !length_app; lia.
    + left. split; [assumption|]. exists line, num, g2. auto.
  - pose proof (structural_candidate_text _ _ _ _ Hs Hin) as Hlen.
    split; [lia|]. right. left. split; [assumption | lia].
  - destruct (toc_candidate_page _ _ _ Ht Hin)
      as (_ & x & _ & _ & Hx & num & Hnum & ->).
    split; [|auto]. rewrite !length_app.
    destruct x; [congruence|]. destruct num; [congruence|]. simpl. lia.
Qed.

Lemma heading_text_bounds_sample :
  exists line_to_page numbered structural toc c,
    _parse_page_info (init_lines sample_toc) = Ok line_to_page /\
    _extract_numbered_headings (init_lines sample_toc) line_to_page
    = Ok numbered /\
    _extract_structural_headings (init_lines sample_toc) line_to_page
    = Ok structural /\
    _extract_toc_headings (init_lines sample_toc) = Ok toc /\
    mkHeading H1 (lit "1. Introduction 5") 1 = to_heading c /\
    3 <= length (h_text (mkHeading H1 (lit "1. Introduction 5") 1)) /\
    ((In c numbered /\
      exists line num g2,
        nth_error (init_lines sample_toc) (position c) = Some line /\
        ((main_match line = Some (num, g2) /\
          h_text (mkHeading H1 (lit "1. Introduction 5") 1)
          = num ++ lit ". " ++ _clean_heading_text g2) \/
         (sub_match line = Some (num, g2) /\
          h_text (mkHeading H1 (lit "1. Introduction 5") 1)
          = num ++ lit " " ++ _clean_heading_text g2)) /\
        3 <= length (_clean_heading_text g2) <= 200) \/
     (In c structural /\
      length (h_text (mkHeading H1 (lit "1. Introduction 5") 1)) <= 200) \/
     In c toc).
Proof.
  apply (heading_text_bounds sample_toc sample_toc_document).
  - vm_compute. reflexivity.
  - left. reflexivity.
Defined.

(** C7 as stated fails: the second line of [long_toc_entry] has 400
    characters and gives, through the table-of-contents detector, a heading
    whose text has 397 characters. *)
Lemma long_line_emitted :
  exists doc line h,
    extract_headings long_toc_entry = Ok doc /\
    nth_error (init_lines long_toc_entry) 1 = Some line /\
    length line = 400 /\
    outline doc = [h] /\
    h_text h = lit "1 " ++ repeat "A"%char 395 /\
    length (h_text h) = 397 /\
    ~ (3 <= length (h_text h) <= 200).
Proof.
  eexists. eexists. eexists.
  split; [vm_compute; reflexivity|].
  split; [vm_compute; reflexivity|].
  split; [vm_compute; reflexivity|].
  split; [reflexivity|].
  split; [vm_compute; reflexivity|].
  split; [vm_compute; reflexivity|].
  vm_compute. lia.
Qed.

(** ** C10: page markers *)

Lemma page_marker_here_marker s p :
  page_marker_here s = Some p <-> marker_at s 0 p.
Proof.
  unfold page_marker_here, marker_at. split.
  - intros H.
    destruct (after_prefix (lit "Page ") s) as [r|] eqn:E1; [|discriminate].
    apply after_prefix_app in E1.
    destruct (digits1 r) as [[d r']|] eqn:E2; [|discriminate].
    apply digits1_Some in E2. destruct E2 as (Hd & Hall & -> & _).
    destruct (after_prefix (lit " of ") r') as [[|c rest]|] eqn:E3;
      try discriminate.
    apply after_prefix_app in E3.
    destruct (is_decimal c) eqn:Ec; [|discriminate]. injection H as <-.
    exists [], [c], rest. subst s r'. simpl.
    repeat split; try discriminate; try assumption. now rewrite Ec.
  - intros (pre & t & post & Hlen & -> & Hp & Hpd & Ht & Htd).
    destruct pre; [|discriminate]. cbn [app].
    assert (E1 : after_prefix (lit "Page ")
                   (lit "Page " ++ p ++ lit " of " ++ t ++ post)
                 = Some (p ++ lit " of " ++ t ++ post))
      by now apply after_prefix_app.
    rewrite E1. unfold digits1.
    change (lit " of " ++ t ++ post)
      with (" "%char :: lit "of " ++ t ++ post).
    destruct (take_drop_stop is_decimal p " " (lit "of " ++ t ++ post)
                Hpd eq_refl) as [-> ->].
    destruct p as [|p0 p]; [congruence|].
    change (" "%char :: lit "of " ++ t ++ post)
      with (lit " of " ++ t ++ post).
    assert (E3 : after_prefix (lit " of ") (lit " of " ++ t ++ post)
                 = Some (t ++ post)) by now apply after_prefix_app.
    rewrite E3. destruct t as [|c t]; [congruence|]. simpl in *.
    apply andb_true_iff in Htd. destruct Htd as [-> _]. reflexivity.
Qed.

Lemma marker_at_S c s k p : marker_at (c :: s) (S k) p <-> marker_at s k p.
Proof.
  unfold marker_at. split.
  - intros (pre & t & post & Hlen & E & H).
    destruct pre as [|x pre]; [discriminate|].
    injection Hlen as Hlen. injection E as _ E.
    exists pre, t, post. auto.
  - intros (pre & t & post & Hlen & -> & H).
    exists (c :: pre), t, post. simpl. auto.
Qed.

Lemma marker_here_unique s p p' :
  marker_at s 0 p -> marker_at s 0 p' -> p = p'.
Proof.
  rewrite <- !page_marker_here_marker. congruence.
Qed.

(** [re.search] finds the leftmost marker of the line. *)
Lemma page_search_Some line p :
  page_search line = Some p <->
  exists k, marker_at line k p /\
            forall k' p', k' < k -> ~ marker_at line k' p'.
Proof.
  induction line as [|c line IH] in p |- *.
  - cbn [page_search]. split.
    + destruct (page_marker_here []) as [q|] eqn:E; [|discriminate].
      intros [= ->]. exists 0. split; [now apply page_marker_here_marker|].
      intros; lia.
    + intros ([|k] & Hm & _).
      * apply page_marker_here_marker in Hm. now rewrite Hm.
      * destruct Hm as (pre & ? & ? & Hlen & E & _).
        destruct pre; [discriminate|]. discriminate.
  - cbn [page_search].
    destruct (page_marker_here (c :: line)) as [q|] eqn:E.
    + apply page_marker_here_marker in E. split.
      * intros [= ->]. exists 0. split; [assumption | intros; lia].
      * intros ([|k] & Hm & Hleft).
        -- f_equal. eapply marker_here_unique; eassumption.
        -- exfalso. apply (Hleft 0 q); [lia | assumption].
    + rewrite IH. split.
      * intros (k & Hm & Hleft). exists (S k). split.
        -- now apply (proj2 (marker_at_S c line k p)).
        -- intros [|k'] p' Hk' Hm'.
           ++ apply page_marker_here_marker in Hm'. congruence.
           ++ apply marker_at_S in Hm'. apply (Hleft k' p'); [lia|assumption].
      * intros ([|k] & Hm & Hleft).
        -- apply page_marker_here_marker in Hm. congruence.
        -- exists k. split; [now apply (proj1 (marker_at_S c line k p))|].
           intros k' p' Hk' Hm'. apply (Hleft (S k') p'); [lia|].
           now apply (proj2 (marker_at_S c line k' p')).
Qed.

Lemma page_search_None line :
  (forall k p, ~ marker_at line k p) -> page_search line = None.
Proof.
  intros H. destruct (page_search line) as [p|] eqn:E; [|reflexivity].
  apply page_search_Some in E. destruct E as (k & Hm & _).
  now apply H in Hm.
Qed.

Lemma parse_pages_length cp lines pages :
  parse_pages cp lines = Ok pages -> length pages = length lines.
Proof.
  revert cp pages. induction lines as [|l lines IH]; intros cp pages.
  - now intros [= <-].
  - cbn [parse_pages]. intros H. inv_bind H. inv_bind H. injection H as <-.
    simpl. f_equal. eauto.
Qed.

(** The page of a line: that of its marker, or that of the line before. *)
Lemma parse_pages_nth cp lines pages i line :
  parse_pages cp lines = Ok pages -> nth_error lines i = Some line ->
  match page_search line with
  | Some p => exists n, int p = Ok n /\ nth_error pages i = Some n
  | None =>
      nth_error pages i
      = match i with 0 => Some cp | S i' => nth_error pages i' end
  end.
Proof.
  revert cp pages i. induction lines as [|l lines IH]; intros cp pages i.
  - destruct i; discriminate.
  - cbn [parse_pages]. intros H Hi. inv_bind H. inv_bind H.
    injection H as <-. destruct i as [|i].
    + injection Hi as ->.
      destruct (page_search line); [eauto|]. now injection Hv as ->.
    + simpl in Hi. pose proof (IH _ _ _ Hv0 Hi) as Hn.
      destruct (page_search line); [exact Hn|]. simpl.
      rewrite Hn. destruct i; reflexivity.
Qed.

Lemma parse_pages_sticky cp lines pages i n d :
  parse_pages cp lines = Ok pages -> nth_error pages i = Some n ->
  (forall m lm, i < m <= i + d -> nth_error lines m = Some lm ->
                page_search lm = None) ->
  i + d < length lines ->
  nth_error pages (i + d) = Some n.
Proof.
  intros H Hi Hquiet. induction d as [|d IH]; intros Hlen.
  - now rewrite Nat.add_0_r.
  - destruct (nth_error lines (i + S d)) as [lm|] eqn:El;
      [|apply nth_error_None in El; lia].
    pose proof (parse_pages_nth _ _ _ _ _ H El) as Hn.
    rewrite (Hquiet (i + S d) lm) in Hn by (auto; lia).
    rewrite Hn. rewrite Nat.add_succ_r. apply IH; [|lia].
    intros m lm' Hm. apply Hquiet. lia.
Qed.

Lemma leftmost_marker_page lines pages i line k p :
  _parse_page_info lines = Ok pages ->
  nth_error lines i = Some line ->
  marker_at line k p ->
  (forall k' p', k' < k -> ~ marker_at line k' p') ->
  exists n,
    int p = Ok n /\ nth_error pages i = Some n /\
    forall j, i <= j -> j < length lines ->
      (forall m lm, i < m <= j -> nth_error lines m = Some lm ->
                    forall k' p', ~ marker_at lm k' p') ->
      nth_error pages j = Some n.
Proof.
  unfold _parse_page_info. intros H Hi Hm Hleft.
  pose proof (parse_pages_nth _ _ _ _ _ H Hi) as Hn.
  assert (E : page_search line = Some p)
    by (apply page_search_Some; eauto).
  rewrite E in Hn. destruct Hn as (n & Hint & Hpage).
  exists n. split; [assumption|]. split; [assumption|].
  intros j Hij Hj Hquiet.
  replace j with (i + (j - i)) by lia.
  eapply parse_pages_sticky; eauto; [|lia].
  intros m lm Hm' Hlm. apply page_search_None.
  apply (Hquiet m lm); [lia | assumption].
Qed.

(** C10, as the code has it: the marker is searched anywhere in the line,
    with its capital P; a line takes the page number of the leftmost
    "Page <p> of <t>" it holds, and the lines after it keep that page up to
    the next line that holds a marker.  (The page map exists only when
    every such number can be converted.) *)
Theorem page_marker_search (lines : list str) (pages : list Z)
    (i : nat) (line : str) (k : nat) (p : str) :
  _parse_page_info lines = Ok pages ->
  nth_error lines i = Some line ->
  marker_at line k p ->
  (forall k' p', k' < k -> ~ marker_at line k' p') ->
  (exists n,
     int p = Ok n /\ nth_error pages i = Some n /\
     forall j, i <= j -> j < length lines ->
       (forall m lm, i < m <= j -> nth_error lines m = Some lm ->
                     forall k' p', ~ marker_at lm k' p') ->
       nth_error pages j = Some n) /\
  _parse_page_info [lit "see Page 3 of 9 below"; lit "text"]
  = Ok [3; 3]%Z /\
  _parse_page_info [lit "page 3 of 9"; lit "PAGE 3 OF 9"] = Ok [1; 1]%Z.
Proof.
  intros H Hi Hm Hleft. split.
  - eapply leftmost_marker_page; eauto.
  - split; vm_compute; reflexivity.
Qed.

Lemma marker_at_sample :
  marker_at (lit "see Page 3 of 9 below") 4 (lit "3").
Proof.
  exists (lit "see "), (lit "9"), (lit " below").
  repeat split; try reflexivity; discriminate.
Qed.

Lemma no_marker_before_sample k' p' :
  k' < 4 -> ~ marker_at (lit "see Page 3 of 9 below") k' p'.
Proof.
  intros Hk Hm.
  assert (E : page_search (lit "see Page 3 of 9 below") = Some (lit "3"))
    by (vm_compute; reflexivity).
  apply page_search_Some in E. destruct E as (k & Hk3 & Hleft).
  destruct (Nat.lt_ge_cases k' k) as [Hlt|Hge];
    [now apply (Hleft k' p')|].
  destruct Hm as (pre & t & post & Hlen & E & _).
  do 4 (destruct pre as [|? pre]; [vm_compute in E; discriminate|]).
  simpl in Hlen. lia.
Qed.

Lemma page_marker_search_sample :
  (exists n,
     int (lit "3") = Ok n /\
     nth_error [3; 3]%Z 0 = Some n /\
     forall j, 0 <= j ->
       j < length [lit "see Page 3 of 9 below"; lit "text"] ->
       (forall m lm, 0 < m <= j ->
          nth_error [lit "see Page 3 of 9 below"; lit "text"] m = Some lm ->
          forall k' p', ~ marker_at lm k' p') ->
       nth_error [3; 3]%Z j = Some n) /\
  _parse_page_info [lit "see Page 3 of 9 below"; lit "text"]
  = Ok [3; 3]%Z /\
  _parse_page_info [lit "page 3 of 9"; lit "PAGE 3 OF 9"] = Ok [1; 1]%Z.
Proof.
  apply (page_marker_search [lit "see Page 3 of 9 below"; lit "text"]
           [3; 3]%Z 0 (lit "see Page 3 of 9 below") 4 (lit "3")).
  - vm_compute. reflexivity.
  - reflexivity.
  - exact marker_at_sample.
  - exact no_marker_before_sample.
Defined.

(** C10 as stated fails: the line holds "Page 3 of 5", at offset 12, and
    its page is 2, the page of the marker found first. *)
Lemma second_marker_ignored :
  marker_at (lit "Page 2 of 5 Page 3 of 5") 12 (lit "3") /\
  _parse_page_info [lit "Page 2 of 5 Page 3 of 5"] = Ok [2]%Z.
Proof.
  split.
  - exists (lit "Page 2 of 5 "), (lit "5"), [].
    repeat split; try reflexivity; discriminate.
  - vm_compute. reflexivity.
Qed.

(** ** C1: the extraction returns *)

Lemma takewhile_app_all p d b :
  forallb p d = true -> takewhile p (d ++ b) = d ++ takewhile p b.
Proof.
  induction d as [|c d IH]; simpl; [reflexivity|].
  intros H. apply andb_true_iff in H. destruct H as [-> H].
  now rewrite IH.
Qed.

Lemma longest_digit_run_head s :
  length (takewhile is_decimal s) <= longest_digit_run s.
Proof. destruct s; cbn [longest_digit_run]; [simpl|]; lia. Qed.

Lemma digit_run_bound a d b :
  forallb is_decimal d = true ->
  length d <= longest_digit_run (a ++ d ++ b).
Proof.
  intros Hd. induction a as [|x a IH].
  - cbn [app]. pose proof (longest_digit_run_head (d ++ b)) as H.
    rewrite takewhile_app_all, length_app in H by assumption. lia.
  - cbn [app longest_digit_run]. lia.
Qed.

Lemma int_Ok d :
  d <> [] -> forallb is_decimal d = true -> length d <= 4300 ->
  exists n, int d = Ok n.
Proof.
  intros Hne Hd Hlen. unfold int. rewrite Hd.
  destruct d; [congruence|]. cbn [isnil negb orb].
  destruct (Z.ltb_spec int_max_str_digits (Z.of_nat (length (a :: d))));
    [|eauto].
  unfold int_max_str_digits in *. lia.
Qed.

Lemma split_first sep s :
  exists w ws b, split sep s = w :: ws /\ s = w ++ b.
Proof.
  induction s as [|c s (w & ws & b & E & Hs)]; simpl.
  - exists [], [], []. auto.
  - destruct (Ascii.eqb c sep).
    + exists [], (split sep s), (c :: s). auto.
    + rewrite E. exists (c :: w), ws, b. simpl. now rewrite <- Hs.
Qed.

Lemma split_within sep s w :
  In w (split sep s) -> exists a b, s = a ++ w ++ b.
Proof.
  revert w. induction s as [|c s IH]; intros w; simpl.
  - intros [<-|[]]. exists [], []. reflexivity.
  - destruct (Ascii.eqb c sep).
    + intros [<-|H].
      * exists [], (c :: s). reflexivity.
      * destruct (IH w H) as (a & b & ->). exists (c :: a), b. reflexivity.
    + destruct (split_first sep s) as (w0 & ws & b0 & E & Hs).
      rewrite E in *. intros [<-|H].
      * exists [], b0. simpl. now rewrite <- Hs.
      * destruct (IH w (or_intror H)) as (a & b & ->).
        exists (c :: a), b. reflexivity.
Qed.

Lemma strip_within s : exists a b, s = a ++ strip s ++ b.
Proof.
  unfold strip. destruct (rstrip_prefix (lstrip s)) as (t & E).
  exists (takewhile is_space s), t.
  rewrite <- E. unfold lstrip. symmetry. apply take_drop.
Qed.

Lemma init_lines_within pdf_text line :
  In line (init_lines pdf_text) -> exists a b, pdf_text = a ++ line ++ b.
Proof.
  unfold init_lines. rewrite filter_In, in_map_iff.
  intros [(x & <- & Hx) _].
  apply split_within in Hx. destruct Hx as (a & b & ->).
  destruct (strip_within x) as (a' & b' & E).
  exists (a ++ a'), (b' ++ b). rewrite E at 1.
  now rewrite <- !app_assoc.
Qed.

Lemma init_lines_convertible pdf_text :
  longest_digit_run pdf_text <= 4300 ->
  Forall convertible (init_lines pdf_text).
Proof.
  intros Hrun. apply Forall_forall. intros line Hline a d b -> Hne Hd.
  apply init_lines_within in Hline. destruct Hline as (a' & b' & E).
  apply int_Ok; try assumption.
  pose proof (digit_run_bound (a' ++ a) d (b ++ b') Hd) as Hb.
  replace ((a' ++ a) ++ d ++ b ++ b') with pdf_text in Hb
    by (rewrite E, <- !app_assoc; reflexivity).
  lia.
Qed.

Lemma parse_pages_total cp lines :
  Forall convertible lines -> exists pages, parse_pages cp lines = Ok pages.
Proof.
  intros H. revert cp. induction H as [|l lines Hl _ IH]; intros cp.
  - simpl. eauto.
  - cbn [parse_pages].
    assert (E : exists v,
               match page_search l with
               | Some g1 => int g1
               | None => Ok cp
               end = Ok v).
    { destruct (page_search l) as [p|] eqn:Es; [|eauto].
      apply page_search_Some in Es.
      destruct Es as (k & (pre & t & post & _ & E & Hp & Hpd & _) & _).
      apply (Hl (pre ++ lit "Page ") p (lit " of " ++ t ++ post));
        try assumption.
      now rewrite <- app_assoc. }
    destruct E as (v & ->). simpl.
    destruct (IH v) as (pages & ->). simpl. eauto.
Qed.

Lemma toc_scan_total i line :
  convertible line -> exists out, toc_scan i line toc_patterns = Ok out.
Proof.
  intros Hc. unfold toc_patterns. cbn [toc_scan].
  assert (Conv : forall num x pn,
            toc_main_match line = Some (num, x, pn) \/
            toc_sub_match line = Some (num, x, pn) ->
            exists n, int pn = Ok n).
  { intros num x pn M. apply toc_match_Some in M.
    destruct M as (_ & _ & Hpn & E).
    apply (Hc (fst (rsplit is_decimal line)) pn []); try assumption.
    - rewrite app_nil_r, E. symmetry. apply rsplit_app.
    - rewrite E. apply rsplit_all. }
  destruct (toc_main_match line) as [[[num x] pn]|] eqn:M1.
  - destruct (Conv num x pn) as (n & ->); [auto|]. simpl. eauto.
  - destruct (toc_sub_match line) as [[[num x] pn]|] eqn:M2; [|eauto].
    destruct (Conv num x pn) as (n & ->); [auto|]. simpl. eauto.
Qed.

Lemma toc_loop_total b i lines :
  Forall convertible lines -> exists toc, toc_loop b i lines = Ok toc.
Proof.
  intros H. revert b i. induction H as [|l lines Hl _ IH]; intros b i.
  - simpl. eauto.
  - cbn [toc_loop].
    destruct (contains _ _); [apply IH|].
    destruct (b && toc_exit _); [apply IH|].
    destruct (IH b (S i)) as (more & ->).
    destruct (b && negb (isnil l)).
    + destruct (toc_scan_total i l Hl) as (out & ->). simpl. eauto.
    + simpl. eauto.
Qed.

Lemma extraction_total (pdf_text : str) :
  longest_digit_run pdf_text <= 4300 ->
  exists doc, extract_headings pdf_text = Ok doc.
Proof.
  intros Hrun. apply init_lines_convertible in Hrun.
  unfold extract_headings.
  destruct (parse_pages_total 1 _ Hrun) as (pages & Hp).
  unfold _parse_page_info. rewrite Hp. cbn [bind].
  destruct (numbered_total (init_lines pdf_text) pages) as (ns & ->).
  cbn [bind].
  destruct (structural_total (init_lines pdf_text) pages) as (ss & ->).
  cbn [bind].
  destruct (toc_loop_total false 0 _ Hrun) as (ts & Ht).
  unfold _extract_toc_headings. rewrite Ht. cbn [bind].
  rewrite clean_and_process_kept. cbn [bind]. eauto.
Qed.

(** C1, as the code has it: the extraction returns a document for every
    text in which no run of consecutive digits is longer than 4300
    characters, the longest decimal string that [int] converts; markers
    need not be present, and the empty text gives the title
    "Unknown Document" and an empty outline. *)
Theorem extraction_returns (pdf_text : str) :
  longest_digit_run pdf_text <= 4300 ->
  (exists doc, extract_headings_from_pdf_text pdf_text = Ok doc) /\
  extract_headings_from_pdf_text (lit "")
  = Ok (mkDocument (lit "Unknown Document") []).
Proof.
  intros Hrun. split.
  - now apply extraction_total.
  - vm_compute. reflexivity.
Qed.

Lemma extraction_returns_sample :
  (exists doc, extract_headings_from_pdf_text sample_toc = Ok doc) /\
  extract_headings_from_pdf_text (lit "")
  = Ok (mkDocument (lit "Unknown Document") []).
Proof.
  apply (extraction_returns sample_toc). vm_compute. lia.
Defined.

(** C1 as stated fails: on a page marker whose page number has 4301
    digits, [int] raises ValueError and so does the extraction. *)
Lemma huge_page_number_raises :
  extract_headings_from_pdf_text huge_page_marker = Raise ValueError.
Proof. vm_compute. reflexivity. Qed.

(** * Further properties of the extractor *)

(** ** Deduplication and order of the outline *)

Lemma kept_loop_complete seen hs c :
  In c hs ->
  In (candidate_key c) seen \/
  exists c', In c' (kept_loop seen hs) /\ candidate_key c' = candidate_key c.
Proof.
  revert seen. induction hs as [|h hs IH]; intros seen; simpl; [tauto|].
  intros [->|Hc].
  - destruct (existsb (key_eqb (candidate_key c)) seen) eqn:E; simpl.
    + left. now apply seen_In.
    + right. exists c. auto.
  - destruct (existsb (key_eqb (candidate_key h)) seen) eqn:E; simpl.
    + destruct (IH seen Hc) as [Hs|(c' & Hc' & Hk)]; [now left|].
      right. exists c'. auto.
    + destruct (IH (candidate_key h :: seen) Hc) as [[Hs|Hs]|(c' & Hc' & Hk)].
      * right. exists h. auto.
      * now left.
      * right. exists c'. auto.
Qed.

Lemma kept_loop_length seen hs : length (kept_loop seen hs) <= length hs.
Proof.
  revert seen. induction hs as [|h hs IH]; intros seen; simpl; [lia|].
  destruct (existsb (key_eqb (candidate_key h)) seen); simpl.
  - specialize (IH seen). lia.
  - specialize (IH (candidate_key h :: seen)). lia.
Qed.

Lemma NoDup_map_unique {A B} (f : A -> B) (l : list A) a b :
  NoDup (map f l) -> In a l -> In b l -> f a = f b -> a = b.
Proof.
  induction l as [|x l IH]; simpl; [tauto|].
  intros Hnd Ha Hb E. apply NoDup_cons_iff in Hnd. destruct Hnd as [Hx Hnd].
  destruct Ha as [->|Ha], Hb as [->|Hb]; auto.
  - exfalso. apply Hx. rewrite E. now apply in_map.
  - exfalso. apply Hx. rewrite <- E. now apply in_map.
Qed.

(** The deduplication returns for every list of candidates (the lookup of
    the sort key always finds its candidate).  What it returns holds
    exactly one heading for every key of the candidates: the keys of the
    headings are pairwise distinct, every key of a candidate is the key of
    a heading, and that heading is the only one with this key.  Every
    heading is the projection of a candidate. *)
Theorem clean_and_process_keeps_every_key (headings : list candidate) :
  exists out,
    _clean_and_process_headings headings = Ok out /\
    NoDup (map heading_key out) /\
    (forall c, In c headings ->
       exists h, In h out /\ heading_key h = candidate_key c /\
         forall h', In h' out -> heading_key h' = candidate_key c ->
                    h' = h) /\
    (forall h, In h out -> exists c, In c headings /\ h = to_heading c) /\
    length out <= length headings.
Proof.
  rewrite clean_and_process_kept. eexists. split; [reflexivity|].
  set (sorted := sort_by confidence_position_le headings).
  pose proof (sort_by_perm confidence_position_le headings) as Ps.
  pose proof (sort_by_perm position_le (kept_loop [] sorted)) as Pk.
  fold sorted in Ps.
  assert (Hnd : NoDup (map heading_key
                         (map to_heading
                            (sort_by position_le (kept_loop [] sorted))))).
  { rewrite map_map.
    change (fun x => heading_key (to_heading x)) with candidate_key.
    eapply Permutation_NoDup; [apply Permutation_map, Pk|].
    apply kept_loop_NoDup. }
  split; [exact Hnd|]. split; [|split].
  - intros c Hc. apply (Permutation_in c Ps) in Hc.
    destruct (kept_loop_complete [] sorted c Hc) as [[]|(c' & Hc' & Hk)].
    assert (Hin : In (to_heading c')
                    (map to_heading
                       (sort_by position_le (kept_loop [] sorted))))
      by (apply in_map; now apply (Permutation_in c' Pk)).
    exists (to_heading c'). split; [exact Hin|]. split; [exact Hk|].
    intros h' Hh' Hk'.
    apply (NoDup_map_unique heading_key _ _ _ Hnd Hh' Hin).
    rewrite Hk'. symmetry. exact Hk.
  - intros h Hh. apply in_map_iff in Hh. destruct Hh as (c & <- & Hc).
    exists c. split; [|reflexivity].
    apply (Permutation_in c (Permutation_sym Pk)) in Hc.
    apply kept_loop_In in Hc. destruct Hc as [Hc _].
    now apply (Permutation_in c (Permutation_sym Ps)).
  - rewrite length_map, <- (Permutation_length Pk).
    rewrite (Permutation_length Ps). apply kept_loop_length.
Qed.

(** A stable sort of a list already sorted for [R] orders by the new key
    first and by [R] among equal keys. *)
Lemma sort_by_stable {A} (le : A -> A -> bool) (R : A -> A -> Prop) l :
  (forall a b, le a b = true \/ le b a = true) ->
  (forall a b c, le a b = true -> le b c = true -> le a c = true) ->
  StronglySorted R l ->
  StronglySorted (fun a b => le a b = true /\ (le b a = true -> R a b))
    (sort_by le l).
Proof.
  intros Htot Htrans. induction 1 as [|x l Hl IH Hx]; simpl; [constructor|].
  assert (Hall : Forall (R x) (sort_by le l)).
  { rewrite Forall_forall in *. intros y Hy. apply Hx.
    now apply (Permutation_in y (Permutation_sym (sort_by_perm le l))). }
  clear Hx Hl. induction IH as [|y s Hs IHs Hy]; simpl.
  - repeat constructor.
  - destruct (le x y) eqn:E.
    + constructor; [now constructor|].
      apply Forall_inv in Hall as Hxy. apply Forall_inv_tail in Hall.
      constructor; [auto|].
      rewrite Forall_forall in *. intros z Hz. split; [|auto].
      destruct (Hy z Hz) as [Hyz _]. eauto.
    + assert (Hyx : le y x = true) by (destruct (Htot x y); congruence).
      constructor; [apply IHs; now apply Forall_inv_tail in Hall|].
      rewrite Forall_forall in *. intros z Hz.
      apply (Permutation_in z (Permutation_sym (insert_by_perm le x s))) in Hz.
      destruct Hz as [<-|Hz]; [|auto].
      split; [assumption | congruence].
Qed.

Lemma kept_loop_sorted (R : candidate -> candidate -> Prop) seen hs :
  StronglySorted R hs -> StronglySorted R (kept_loop seen hs).
Proof.
  intros H. revert seen. induction H as [|h hs Hs IH Hh]; intros seen; simpl;
    [constructor|].
  destruct (existsb (key_eqb (candidate_key h)) seen); simpl; [apply IH|].
  constructor; [apply IH|].
  rewrite Forall_forall in *. intros c Hc. apply Hh.
  now apply kept_loop_In in Hc.
Qed.

(** What the deduplication returns is the projection of candidates of the
    list it was given: for every key of the list the one candidate that
    comes first in the order of decreasing confidence then increasing
    position, and no other.  These are listed by position, and those of one
    position (the candidates of one line) by decreasing confidence. *)
Theorem outline_order_breaks_ties (headings : list candidate) :
  exists kept,
    _clean_and_process_headings headings = Ok (map to_heading kept) /\
    NoDup (map candidate_key kept) /\
    (forall c, In c kept ->
       In c headings /\
       forall c', In c' headings -> candidate_key c' = candidate_key c ->
                  confidence_position_le c c' = true) /\
    (forall c, In c headings ->
       exists c', In c' kept /\ candidate_key c' = candidate_key c) /\
    StronglySorted
      (fun a b => position a < position b \/
                  (position a = position b /\
                   (confidence b <= confidence a)%Z))
      kept.
Proof.
  rewrite clean_and_process_kept. eexists. split; [reflexivity|].
  set (sorted := sort_by confidence_position_le headings).
  pose proof (sort_by_perm confidence_position_le headings) as Ps.
  pose proof (sort_by_perm position_le (kept_loop [] sorted)) as Pk.
  pose proof (sort_by_sorted confidence_position_le
                confidence_position_le_total confidence_position_le_trans
                headings) as Hs.
  fold sorted in Ps, Hs.
  split; [|split; [|split]].
  - eapply Permutation_NoDup; [apply Permutation_map, Pk|].
    apply kept_loop_NoDup.
  - intros c Hin.
    apply (Permutation_in c (Permutation_sym Pk)) in Hin.
    pose proof (kept_loop_In _ _ _ Hin) as [Hc _].
    split; [now apply (Permutation_in c (Permutation_sym Ps))|].
    apply kept_loop_first in Hin. destruct Hin as (pre & post & E & Hpre).
    intros c' Hc' Hk.
    apply (Permutation_in c' Ps) in Hc'. rewrite E in Hc', Hs.
    apply in_app_or in Hc'. destruct Hc' as [Hc'|[<-|Hc']].
    + exfalso. now apply (Hpre c').
    + destruct (confidence_position_le_total c c); assumption.
    + clear - Hs Hc'. induction pre as [|h pre IH]; simpl in Hs.
      * apply StronglySorted_inv in Hs. destruct Hs as [_ F].
        rewrite Forall_forall in F. auto.
      * apply StronglySorted_inv in Hs. tauto.
  - intros c Hc. apply (Permutation_in c Ps) in Hc.
    destruct (kept_loop_complete [] sorted c Hc) as [[]|(c' & Hc' & Hk)].
    exists c'. split; [|exact Hk]. now apply (Permutation_in c' Pk).
  - apply (kept_loop_sorted _ []) in Hs.
    apply (sort_by_stable position_le _ _ position_le_total
             position_le_trans) in Hs.
    revert Hs. generalize (sort_by position_le (kept_loop [] sorted)).
    intros l Hs. induction Hs as [|a l Hl IH Ha]; constructor; [assumption|].
    eapply Forall_impl; [|exact Ha]. cbv beta. intros b [Hab Hba].
    unfold position_le, confidence_position_le in *.
    apply Nat.leb_le in Hab.
    destruct (Nat.eq_dec (position a) (position b)) as [E|N]; [|left; lia].
    right. split; [assumption|].
    assert (Hle : (position b <=? position a) = true)
      by (apply Nat.leb_le; lia).
    apply Hba in Hle.
    rewrite orb_true_iff, andb_true_iff, Z.ltb_lt, Z.eqb_eq in Hle. lia.
Qed.

(** ** The lines and the page map *)

Lemma split_no_sep sep s w : In w (split sep s) -> ~ In sep w.
Proof.
  revert w. induction s as [|c s IH]; intros w; simpl.
  - intros [<-|[]] [].
  - destruct (Ascii.eqb_spec c sep) as [->|N].
    + intros [<-|H]; [intros [] | now apply IH].
    + destruct (split sep s) as [|w0 ws] eqn:E.
      * intros [<-|[]] [Hc|[]]. congruence.
      * intros [<-|H].
        -- intros [Hc|Hc]; [congruence|]. apply (IH w0); [now left | assumption].
        -- apply IH. now right.
Qed.

Lemma strip_trimmed s c r :
  strip s = c :: r -> is_space c = false /\ is_space (last (c :: r) c) = false.
Proof.
  intros E. split.
  - unfold strip in E. destruct (rstrip_prefix (lstrip s)) as (t & Ht).
    rewrite E in Ht. unfold lstrip in Ht. simpl in Ht.
    now apply dropwhile_head in Ht.
  - unfold strip, rstrip in E.
    destruct (dropwhile is_space (rev (lstrip s))) as [|x xs] eqn:Ed;
      [discriminate|].
    apply dropwhile_head in Ed. simpl in E.
    rewrite <- E. now rewrite last_last.
Qed.

(** Every line kept by the constructor is non-empty, holds no newline and
    has no whitespace at either end. *)
Theorem lines_are_trimmed (pdf_text : str) (line : str) :
  In line (init_lines pdf_text) ->
  ~ In "010"%char line /\
  exists c r, line = c :: r /\
    is_space c = false /\ is_space (last line c) = false.
Proof.
  unfold init_lines. rewrite filter_In, in_map_iff.
  intros [(x & <- & Hx) Hne]. split.
  - intros Hn. apply (split_no_sep _ _ _ Hx).
    destruct (strip_within x) as (a & b & E). rewrite E.
    apply in_or_app. right. apply in_or_app. now left.
  - destruct (strip x) as [|c r] eqn:E; [discriminate|].
    exists c, r. split; [reflexivity|]. now apply strip_trimmed in E.
Qed.

Lemma lines_are_trimmed_sample :
  ~ In "010"%char (lit "1. Introduction 5") /\
  exists c r, lit "1. Introduction 5" = c :: r /\
    is_space c = false /\
    is_space (last (lit "1. Introduction 5") c) = false.
Proof.
  apply (lines_are_trimmed sample_toc). vm_compute. auto.
Defined.

Lemma marker_at_found line k p : marker_at line k p -> page_search line <> None.
Proof.
  revert k. induction line as [|c line IH]; intros k Hm.
  - destruct k.
    + apply page_marker_here_marker in Hm. cbn [page_search]. now rewrite Hm.
    + destruct Hm as (pre & ? & ? & Hlen & E & _).
      destruct pre; discriminate.
  - cbn [page_search].
    destruct (page_marker_here (c :: line)) eqn:E; [discriminate|].
    destruct k as [|k].
    + apply page_marker_here_marker in Hm. congruence.
    + apply marker_at_S in Hm. eauto.
Qed.

Lemma parse_pages_quiet cp lines :
  (forall line, In line lines -> page_search line = None) ->
  parse_pages cp lines = Ok (repeat cp (length lines)).
Proof.
  induction lines as [|l lines IH]; intros H; simpl; [reflexivity|].
  rewrite (H l) by now left. simpl.
  rewrite IH by (intros; apply H; now right). reflexivity.
Qed.

(** Without a page marker the page map returns and puts every line on
    page 1; a line that gets another page holds a marker. *)
Theorem no_marker_page_one (lines : list str) :
  (forall line k p, In line lines -> ~ marker_at line k p) ->
  _parse_page_info lines = Ok (repeat 1%Z (length lines)).
Proof.
  intros H. apply parse_pages_quiet. intros line Hl.
  apply page_search_None. intros k p. now apply H.
Qed.

Lemma no_marker_sample line k p :
  In line [lit "Abstract"; lit "page 3 of 9"] -> ~ marker_at line k p.
Proof.
  intros Hl Hm. apply marker_at_found in Hm. apply Hm.
  destruct Hl as [<-|[<-|[]]]; vm_compute; reflexivity.
Qed.

Lemma no_marker_page_one_sample :
  _parse_page_info [lit "Abstract"; lit "page 3 of 9"]
  = Ok (repeat 1%Z (length [lit "Abstract"; lit "page 3 of 9"])).
Proof.
  apply (no_marker_page_one [lit "Abstract"; lit "page 3 of 9"]).
  exact no_marker_sample.
Defined.

Lemma toc_candidate_position lines toc c :
  _extract_toc_headings lines = Ok toc -> In c toc ->
  position c < length lines.
Proof.
  intros H Hc. destruct (toc_candidate_page _ _ _ H Hc) as (line & _ & Hn & _).
  apply nth_error_Some. congruence.
Qed.

(** Every candidate handed to the deduplication sits on a line of the
    text, and a candidate of the numbered or of the structural detector
    carries the page that the page map gives to its line; the page map has
    one entry per line. *)
Theorem candidates_index_lines (pdf_text : str) (cands : list candidate) :
  extract_candidates pdf_text = Ok cands ->
  exists pages,
    _parse_page_info (init_lines pdf_text) = Ok pages /\
    length pages = length (init_lines pdf_text) /\
    forall c, In c cands ->
      position c < length (init_lines pdf_text) /\
      ((confidence c = 9 \/ confidence c = 8 \/ confidence c = 6)%Z ->
       nth_error pages (position c) = Some (page c)) /\
      (confidence c = 9 \/ confidence c = 8 \/ confidence c = 6 \/
       confidence c = 5)%Z.
Proof.
  intros H. apply extract_candidates_Ok in H.
  destruct H as (pages & ns & ss & ts & Hp & Hn & Hs & Ht & ->).
  exists pages. split; [assumption|].
  pose proof (parse_pages_length _ _ _ Hp) as Hlen.
  split; [assumption|]. intros c Hc.
  assert (Page : forall i, i < length (init_lines pdf_text) ->
            nth_error pages i = Some (page_get pages i)).
  { intros i Hi. unfold page_get. apply nth_error_nth'. lia. }
  apply in_app_or in Hc. destruct Hc as [Hc|Hc];
    [|apply in_app_or in Hc; destruct Hc as [Hc|Hc]].
  - destruct (for_enumerate_In _ _ _ _ _ Hn Hc) as (k & l & out & Hk & Hb & Ho).
    destruct (numbered_body_In _ _ _ _ _ _ Hb Ho)
      as (_ & Hpos & Hpage & num & g2 & _ & Hm).
    simpl in Hpos, Hpage.
    assert (Hi : k < length (init_lines pdf_text))
      by (apply nth_error_Some; congruence).
    rewrite Hpos, Hpage. split; [assumption|]. split; [auto|].
    destruct Hm as [(_ & _ & _ & ->)|(_ & _ & _ & ->)]; auto.
  - destruct (for_enumerate_In _ _ _ _ _ Hs Hc) as (k & l & out & Hk & Hb & Ho).
    destruct (structural_scan_In _ _ _ _ _ _ _ _ Hb Ho)
      as (Hpos & Hpage & _ & -> & _).
    simpl in Hpos, Hpage.
    assert (Hi : k < length (init_lines pdf_text))
      by (apply nth_error_Some; congruence).
    rewrite Hpos, Hpage. split; [assumption|]. split; [auto|]. auto.
  - split; [eapply toc_candidate_position; eauto|].
    unfold _extract_toc_headings in Ht.
    destruct (toc_loop_In _ _ _ _ _ Ht Hc)
      as (k & line & out & _ & _ & _ & _ & Hsc & Ho).
    destruct (toc_scan_In _ _ _ _ Hsc Ho) as (_ & _ & _ & _ & _ & _ & _ & _ & ->).
    split; [intros [|[|]]; discriminate | auto].
Qed.

Lemma candidates_index_lines_sample :
  exists pages,
    _parse_page_info (init_lines sample_toc) = Ok pages /\
    length pages = length (init_lines sample_toc) /\
    forall c,
      In c [mkCandidate H1 (lit "1. Introduction 5") 1 1 9;
            mkCandidate H1 (lit "1 Introduction") 5 1 5] ->
      position c < length (init_lines sample_toc) /\
      ((confidence c = 9 \/ confidence c = 8 \/ confidence c = 6)%Z ->
       nth_error pages (position c) = Some (page c)) /\
      (confidence c = 9 \/ confidence c = 8 \/ confidence c = 6 \/
       confidence c = 5)%Z.
Proof.
  apply (candidates_index_lines sample_toc). vm_compute. reflexivity.
Defined.

(** ** Numbered lines, keywords and noise *)

Lemma lower_decimal c : is_decimal c = true -> lower_char c = c.
Proof. destruct c as [[] [] [] [] [] [] [] []]; vm_compute; congruence. Qed.

Lemma lower_decimals d : forallb is_decimal d = true -> lower d = d.
Proof.
  induction d as [|c d IH]; simpl; [reflexivity|].
  intros H. apply andb_true_iff in H. destruct H as [Hc Hd].
  now rewrite lower_decimal, IH.
Qed.

Lemma take_rep_all n cls s rest :
  take_rep n cls s = Some rest ->
  exists pre, s = pre ++ rest /\ forallb cls pre = true.
Proof.
  revert s. induction n as [|n IH]; intros s; simpl.
  - intros [= ->]. exists []. auto.
  - destruct s as [|c s]; [discriminate|].
    destruct (cls c) eqn:E; [|discriminate].
    intros H. destruct (IH _ H) as (pre & -> & Hp).
    exists (c :: pre). simpl. now rewrite E.
Qed.

Lemma year_pattern_numbered d r :
  matches [Rep 4 is_decimal; End] (d ++ "."%char :: r) = false.
Proof.
  unfold matches. cbn [run].
  destruct (take_rep 4 is_decimal (d ++ "."%char :: r)) as [rest|] eqn:E;
    [|reflexivity].
  destruct rest; [|reflexivity]. exfalso.
  apply take_rep_all in E. destruct E as (pre & E & Hp).
  rewrite app_nil_r in E. rewrite <- E, forallb_app in Hp.
  apply andb_true_iff in Hp. destruct Hp as [_ Hp]. discriminate.
Qed.

Lemma number_pattern_numbered d r :
  forallb is_decimal d = true ->
  matches [Plus is_decimal; End] (d ++ "."%char :: r) = false.
Proof.
  intros Hd. unfold matches. cbn [run].
  destruct (take_drop_stop is_decimal d "." r Hd eq_refl) as [-> ->].
  now destruct d.
Qed.

(** A line that starts with digits and a dot is not a noise line. *)
Lemma numbered_prefix_not_noise (line : str) :
  numbered_prefix line -> _is_noise_line line = false.
Proof.
  intros (d & r & Hne & Hd & ->). unfold _is_noise_line.
  assert (E : lower (d ++ "."%char :: r) = d ++ "."%char :: lower r).
  { unfold lower at 1. rewrite map_app. fold (lower d).
    now rewrite lower_decimals. }
  rewrite E. unfold noise_patterns. cbn [existsb].
  rewrite year_pattern_numbered, number_pattern_numbered by assumption.
  destruct d as [|d0 d]; [congruence|].
  simpl in Hd. apply andb_true_iff in Hd. destruct Hd as [Hd0 _].
  destruct d0 as [[] [] [] [] [] [] [] []]; try discriminate Hd0;
    vm_compute; reflexivity.
Qed.

Lemma digits_dot_prefix line d c r :
  digits1 line = Some (d, c :: r) -> c = "."%char -> numbered_prefix line.
Proof.
  intros D ->. apply digits1_Some in D. destruct D as (Hn & Hd & -> & _).
  exists d, r. auto.
Qed.

Lemma main_match_prefix line g : main_match line = Some g -> numbered_prefix line.
Proof.
  unfold main_match.
  destruct (digits1 line) as [[d [|c r]]|] eqn:D; try discriminate.
  intros H. apply (digits_dot_prefix _ _ _ _ D).
  destruct c as [[] [] [] [] [] [] [] []]; try discriminate. reflexivity.
Qed.

Lemma subnumber_prefix line g : subnumber line = Some g -> numbered_prefix line.
Proof.
  unfold subnumber.
  destruct (digits1 line) as [[d [|c r]]|] eqn:D; try discriminate.
  intros H. apply (digits_dot_prefix _ _ _ _ D).
  destruct c as [[] [] [] [] [] [] [] []]; try discriminate. reflexivity.
Qed.

Lemma sub_match_prefix line g : sub_match line = Some g -> numbered_prefix line.
Proof.
  unfold sub_match. destruct (subnumber line) as [[n r]|] eqn:D;
    [|discriminate].
  intros _. eapply subnumber_prefix; eauto.
Qed.

Lemma toc_match_prefix line g :
  toc_main_match line = Some g \/ toc_sub_match line = Some g ->
  numbered_prefix line.
Proof.
  intros [H|H].
  - unfold toc_main_match in H.
    destruct (digits1 line) as [[d [|c r]]|] eqn:D; try discriminate.
    apply (digits_dot_prefix _ _ _ _ D).
    destruct c as [[] [] [] [] [] [] [] []]; try discriminate. reflexivity.
  - unfold toc_sub_match in H.
    destruct (subnumber line) as [[n r]|] eqn:D; [|discriminate].
    eapply subnumber_prefix; eauto.
Qed.

(** A line matched by one of the two patterns of the numbered detector or
    by one of the two patterns of the table-of-contents detector is never a
    noise line: the noise test of the numbered detector removes nothing
    that its patterns would match. *)
Theorem numbered_line_not_noise (line : str) :
  main_match line <> None \/ sub_match line <> None \/
  toc_main_match line <> None \/ toc_sub_match line <> None ->
  _is_noise_line line = false.
Proof.
  intros H. apply numbered_prefix_not_noise.
  destruct H as [H|[H|[H|H]]].
  - destruct (main_match line) eqn:E; [|congruence].
    eapply main_match_prefix; eauto.
  - destruct (sub_match line) eqn:E; [|congruence].
    eapply sub_match_prefix; eauto.
  - destruct (toc_main_match line) eqn:E; [|congruence].
    eapply toc_match_prefix; eauto.
  - destruct (toc_sub_match line) eqn:E; [|congruence].
    eapply toc_match_prefix; eauto.
Qed.

Lemma numbered_line_not_noise_sample :
  _is_noise_line (lit "2024. Plans for the year 7") = false.
Proof.
  apply (numbered_line_not_noise (lit "2024. Plans for the year 7")).
  left. vm_compute. discriminate.
Defined.

(** A text matched by a structural pattern does not start with a digit. *)
Lemma structural_starts_with_letter l pattern lvl :
  In (pattern, lvl) structural_patterns ->
  matches pattern l = true ->
  exists c r, l = c :: r /\ is_decimal c = false.
Proof.
  unfold structural_patterns. intros Hin M. simpl in Hin.
  repeat (destruct Hin as [Hin|Hin];
          [injection Hin as <- <-;
           apply matches_Lit in M; destruct M as (r & ->);
           eexists; eexists; split; [reflexivity | reflexivity]|]).
  destruct Hin.
Qed.

(** No line of a text gets a candidate both from the numbered and from the
    structural detector: a position holds at most one of the two. *)
Theorem numbered_and_structural_exclusive (pdf_text : str)
    (line_to_page : list Z) (numbered structural : list candidate) :
  _extract_numbered_headings (init_lines pdf_text) line_to_page
  = Ok numbered ->
  _extract_structural_headings (init_lines pdf_text) line_to_page
  = Ok structural ->
  forall c1 c2, In c1 numbered -> In c2 structural ->
                position c1 <> position c2.
Proof.
  intros Hn Hs c1 c2 H1 H2 Epos.
  destruct (for_enumerate_In _ _ _ _ _ Hn H1) as (k & l & out & Hk & Hb & Ho).
  destruct (numbered_body_In _ _ _ _ _ _ Hb Ho)
    as (_ & Hp1 & _ & num & g2 & _ & Hm).
  destruct (for_enumerate_In _ _ _ _ _ Hs H2)
    as (k' & l' & out' & Hk' & Hb' & Ho').
  destruct (structural_scan_In _ _ _ _ _ _ _ _ Hb' Ho')
    as (Hp2 & _ & _ & _ & _ & pattern & Hin & M).
  simpl in Hp1, Hp2. assert (k' = k) by congruence. subst k'.
  assert (l' = l) by congruence. subst l'.
  apply nth_error_In, init_lines_stripped in Hk. destruct Hk as [Hstrip _].
  rewrite strip_lower, Hstrip in M.
  destruct (structural_starts_with_letter _ _ _ Hin M) as (c & r & El & Hc).
  assert (Hpre : numbered_prefix l).
  { destruct Hm as [(Hm & _)|(Hm & _)];
      [eapply main_match_prefix | eapply sub_match_prefix]; eauto. }
  destruct Hpre as (d & r' & Hne & Hd & ->).
  destruct d as [|d0 d]; [congruence|]. simpl in El, Hd.
  apply andb_true_iff in Hd. destruct Hd as [Hd0 _].
  injection El as E0 _. rewrite lower_decimal in E0 by assumption.
  congruence.
Qed.

Lemma numbered_and_structural_exclusive_sample :
  position (mkCandidate H1 (lit "1. Scope") 1 2 9)
  <> position (mkCandidate H1 (lit "Abstract") 1 1 6).
Proof.
  apply (numbered_and_structural_exclusive sample_mixed [1; 1; 1]%Z
           [mkCandidate H1 (lit "1. Scope") 1 2 9]
           [mkCandidate H1 (lit "Abstract") 1 1 6]).
  - vm_compute. reflexivity.
  - vm_compute. reflexivity.
  - left. reflexivity.
  - left. reflexivity.
Defined.

(** ** The table of contents needs its heading line *)

Lemma toc_flag_0 b lines : toc_flag b lines 0 = b.
Proof. reflexivity. Qed.

Lemma toc_flag_set lines p :
  toc_flag false lines p = true -> p <= length lines ->
  exists q lq,
    q < p /\ nth_error lines q = Some lq /\ opens_contents lq = true /\
    forall m lm, q < m < p -> nth_error lines m = Some lm ->
      opens_contents lm = false /\ closes_contents lm = false.
Proof.
  induction p as [|n IH]; [rewrite toc_flag_0; discriminate|].
  intros Hflag Hlen.
  destruct (nth_error lines n) as [l|] eqn:El;
    [|apply nth_error_None in El; lia].
  rewrite (toc_flag_next _ _ _ _ El) in Hflag. unfold toc_step in Hflag.
  destruct (opens_contents l) eqn:Eo.
  - exists n, l. repeat split; auto; lia.
  - destruct (toc_flag false lines n) eqn:Ef; [|discriminate].
    simpl in Hflag. destruct (closes_contents l) eqn:Ec; [discriminate|].
    destruct IH as (q & lq & Hq & Hnq & Hoq & Hbetween); [reflexivity|lia|].
    exists q, lq. repeat split; auto.
    + destruct (Nat.eq_dec m n) as [->|N]; [congruence|].
      apply (Hbetween m lm); [lia | assumption].
    + destruct (Nat.eq_dec m n) as [->|N]; [congruence|].
      apply (Hbetween m lm); [lia | assumption].
Qed.

(** Every candidate of the table-of-contents detector comes after a line
    that holds "table of contents", with no line between the two (nor the
    entry itself) that opens or closes a table of contents; a text without
    such a line gets no candidate from this detector. *)
Theorem toc_entry_follows_heading (lines : list str) (toc : list candidate)
    (c : candidate) :
  _extract_toc_headings lines = Ok toc -> In c toc ->
  exists q lq,
    q < position c /\ nth_error lines q = Some lq /\
    opens_contents lq = true /\
    forall m lm, q < m <= position c -> nth_error lines m = Some lm ->
      opens_contents lm = false /\ closes_contents lm = false.
Proof.
  intros H Hc. unfold _extract_toc_headings in H.
  destruct (toc_loop_In _ _ _ _ _ H Hc)
    as (p & line & out & Hp & Hflag & Ho & Hcl & Hs & Hin).
  destruct (toc_scan_In _ _ _ _ Hs Hin) as (_ & _ & _ & _ & _ & _ & _ & Hpos & _).
  simpl in Hpos. rewrite Hpos.
  assert (Hlen : p < length lines) by (apply nth_error_Some; congruence).
  destruct (toc_flag_set lines p Hflag) as (q & lq & Hq & Hnq & Hoq & Hb);
    [lia|].
  exists q, lq. repeat split; auto.
  - destruct (Nat.eq_dec m p) as [->|N]; [congruence|].
    apply (Hb m lm); [lia | assumption].
  - destruct (Nat.eq_dec m p) as [->|N]; [congruence|].
    apply (Hb m lm); [lia | assumption].
Qed.

Lemma toc_entry_follows_heading_sample :
  exists q lq,
    q < position (mkCandidate H1 (lit "1 Introduction") 5 1 5) /\
    nth_error (init_lines sample_toc) q = Some lq /\
    opens_contents lq = true /\
    forall m lm,
      q < m <= position (mkCandidate H1 (lit "1 Introduction") 5 1 5) ->
      nth_error (init_lines sample_toc) m = Some lm ->
      opens_contents lm = false /\ closes_contents lm = false.
Proof.
  apply (toc_entry_follows_heading (init_lines sample_toc)
           [mkCandidate H1 (lit "1 Introduction") 5 1 5]).
  - vm_compute. reflexivity.
  - left. reflexivity.
Defined.

(** ** The shape of a cleaned text *)

Lemma collapse_length b s : length (collapse_spaces b s) <= length s.
Proof.
  revert b. induction s as [|c s IH]; intros b; simpl; [lia|].
  destruct (is_space c); [destruct b|]; simpl.
  - specialize (IH true). lia.
  - specialize (IH true). lia.
  - specialize (IH false). lia.
Qed.

Lemma single_spaced_spaces b s c :
  single_spaced b s -> In c s -> is_space c = true -> c = " "%char.
Proof.
  revert b. induction s as [|x s IH]; intros b; simpl; [tauto|].
  destruct (is_space x) eqn:E.
  - intros (-> & _ & H) [<-|Hc] Hs; [reflexivity | eauto].
  - intros H [<-|Hc] Hs; [congruence | eauto].
Qed.

(** A cleaned text is trimmed, its only whitespace is single spaces that
    stand alone, and it is not longer than the text it comes from. *)
Theorem clean_text_shape (x : str) :
  strip (_clean_heading_text x) = _clean_heading_text x /\
  single_spaced false (_clean_heading_text x) /\
  (forall c, In c (_clean_heading_text x) -> is_space c = true ->
             c = " "%char) /\
  length (_clean_heading_text x) <= length x.
Proof.
  split; [unfold _clean_heading_text; apply strip_idem|].
  split; [apply clean_single_spaced|].
  split.
  - intros c. apply single_spaced_spaces with (b := false).
    apply clean_single_spaced.
  - unfold _clean_heading_text.
    etransitivity; [apply strip_length|].
    etransitivity; [apply cut_length|]. apply collapse_length.
Qed.

(** ** Texts of noise lines *)

Lemma no_candidate_on_noise (pdf_text : str) (cands : list candidate) :
  extract_candidates pdf_text = Ok cands ->
  (forall line, In line (init_lines pdf_text) -> _is_noise_line line = true) ->
  cands = [].
Proof.
  intros H Hnoise. apply extract_candidates_Ok in H.
  destruct H as (pages & ns & ss & ts & _ & Hn & Hs & Ht & ->).
  assert (None_in : forall c, ~ In c (ns ++ ss ++ ts)).
  { intros c Hc. apply in_app_or in Hc. destruct Hc as [Hc|Hc];
      [|apply in_app_or in Hc; destruct Hc as [Hc|Hc]].
    - destruct (for_enumerate_In _ _ _ _ _ Hn Hc)
        as (k & l & out & Hk & Hb & Ho).
      destruct (numbered_body_In _ _ _ _ _ _ Hb Ho) as (Hnn & _).
      apply nth_error_In, Hnoise in Hk. congruence.
    - destruct (for_enumerate_In _ _ _ _ _ Hs Hc)
        as (k & l & out & Hk & Hb & Ho).
      destruct (structural_scan_In _ _ _ _ _ _ _ _ Hb Ho)
        as (_ & _ & _ & _ & _ & pattern & Hin & M).
      apply nth_error_In in Hk.
      pose proof (init_lines_stripped _ _ Hk) as [Hstrip _].
      rewrite strip_lower, Hstrip in M.
      apply (structural_not_noise _ _ _ Hin) in M.
      apply Hnoise in Hk. unfold _is_noise_line in Hk. congruence.
    - unfold _extract_toc_headings in Ht.
      destruct (toc_loop_In _ _ _ _ _ Ht Hc)
        as (k & l & out & Hk & _ & _ & _ & Hsc & Ho).
      destruct (toc_scan_In _ _ _ _ Hsc Ho) as (num & x & pn & M & _).
      apply toc_match_prefix, numbered_prefix_not_noise in M.
      apply nth_error_In, Hnoise in Hk. congruence. }
  destruct (ns ++ ss ++ ts) as [|c l]; [reflexivity|].
  exfalso. apply (None_in c). now left.
Qed.

(** A text whose lines are all noise lines gives, when the extraction
    returns, the title "Unknown Document" and an empty outline: no
    detector, the table-of-contents detector included, takes a noise
    line. *)
Theorem noise_only_text (pdf_text : str) (doc : document) :
  extract_headings pdf_text = Ok doc ->
  (forall line, In line (init_lines pdf_text) -> _is_noise_line line = true) ->
  doc = mkDocument (lit "Unknown Document") [].
Proof.
  intros H Hnoise. apply extract_headings_Ok in H.
  destruct H as (cands & Hc & Ho & Ht).
  apply no_candidate_on_noise in Hc; [|assumption]. subst cands.
  simpl in Ho. rewrite Ho in Ht. simpl in Ht.
  destruct doc as [t o]. simpl in *. now subst.
Qed.

Lemma noise_only_text_sample :
  mkDocument (lit "Unknown Document") []
  = mkDocument (lit "Unknown Document") [].
Proof.
  apply (noise_only_text sample_noise).
  - vm_compute. reflexivity.
  - intros line Hl. vm_compute in Hl.
    destruct Hl as [<-|[<-|[<-|[]]]]; vm_compute; reflexivity.
Defined.

(** ** The title *)

Lemma heading_text_min pdf_text doc h :
  extract_headings pdf_text = Ok doc -> In h (outline doc) ->
  3 <= length (h_text h).
Proof.
  intros H Hh.
  destruct (outline_from_candidates _ _ _ H Hh) as (cands & c & Hc & Hin & ->).
  apply extract_candidates_Ok in Hc.
  destruct Hc as (ltp & ns & ss & ts & Hp & Hn & Hs & Ht & ->). simpl.
  apply in_app_or in Hin. destruct Hin as [Hin|Hin];
    [|apply in_app_or in Hin; destruct Hin as [Hin|Hin]].
  - destruct (numbered_candidate_text _ _ _ _ Hn Hin)
      as (num & t & _ & Htext & Hlen).
    destruct Htext as [-> | ->]; rewrite !length_app; lia.
  - pose proof (structural_candidate_text _ _ _ _ Hs Hin). lia.
  - destruct (toc_candidate_page _ _ _ Ht Hin)
      as (_ & x & _ & _ & Hx & num & Hnum & ->).
    rewrite !length_app.
    destruct x; [congruence|]. destruct num; [congruence|]. simpl. lia.
Qed.

(** The title is never empty.  It is "Unknown Document" when the outline is
    empty; otherwise it is one of the first ten lines, longer than 10
    characters, or else the text of the first heading of the outline. *)
Theorem title_source (pdf_text : str) (doc : document) :
  extract_headings pdf_text = Ok doc ->
  title doc <> [] /\
  ((outline doc = [] /\ title doc = lit "Unknown Document") \/
   (outline doc <> [] /\ In (title doc) (firstn 10 (init_lines pdf_text)) /\
    10 < length (title doc)) \/
   (exists h rest, outline doc = h :: rest /\ title doc = h_text h)).
Proof.
  intros H.
  pose proof (fun h => heading_text_min pdf_text doc h H) as Hmin.
  apply extract_headings_Ok in H. destruct H as (cands & _ & _ & Ht).
  unfold _determine_document_title in Ht.
  destruct (outline doc) as [|h rest] eqn:Eo.
  - simpl in Ht. rewrite Ht. split; [discriminate | auto].
  - simpl isnil in Ht. cbv iota in Ht.
    destruct (find title_line (firstn 10 (init_lines pdf_text))) as [l|] eqn:Ef.
    + apply find_some in Ef. destruct Ef as [Hin Hq].
      apply title_line_spec in Hq. destruct Hq as (Hlen & _).
      rewrite Ht. split.
      * intros ->. simpl in Hlen. lia.
      * right. left. split; [discriminate | auto].
    + rewrite Ht. split.
      * specialize (Hmin h (or_introl eq_refl)).
        intros E. rewrite E in Hmin. simpl in Hmin. lia.
      * right. right. eauto.
Qed.

Lemma title_source_sample :
  title sample_toc_document <> [] /\
  ((outline sample_toc_document = [] /\
    title sample_toc_document = lit "Unknown Document") \/
   (outline sample_toc_document <> [] /\
    In (title sample_toc_document) (firstn 10 (init_lines sample_toc)) /\
    10 < length (title sample_toc_document)) \/
   (exists h rest, outline sample_toc_document = h :: rest /\
                   title sample_toc_document = h_text h)).
Proof.
  apply (title_source sample_toc sample_toc_document).
  vm_compute. reflexivity.
Defined.

(** ** Page numbers *)

Lemma digits_fold_nonneg s acc :
  forallb is_decimal s = true -> (0 <= acc)%Z ->
  (0 <= fold_left (fun a c => 10 * a + digit_value c) s acc)%Z.
Proof.
  revert acc. induction s as [|c s IH]; intros acc;
    cbn [fold_left forallb]; [auto|].
  intros H Hacc. apply andb_true_iff in H. destruct H as [Hc Hs].
  apply IH; [assumption|].
  assert (0 <= digit_value c)%Z; [|lia].
  unfold digit_value, is_decimal, between in *.
  apply andb_true_iff in Hc. destruct Hc as [Hlo _].
  apply Nat.leb_le in Hlo. lia.
Qed.

Lemma int_nonneg s n : int s = Ok n -> (0 <= n)%Z.
Proof.
  unfold int.
  destruct (forallb is_decimal s) eqn:Hd;
    [|now rewrite orb_true_r].
  destruct (isnil s); [discriminate|]. simpl.
  destruct (int_max_str_digits <? Z.of_nat (length s))%Z; [discriminate|].
  intros [= <-]. now apply digits_fold_nonneg.
Qed.

Lemma parse_pages_nonneg cp lines pages :
  (0 <= cp)%Z -> parse_pages cp lines = Ok pages ->
  Forall (fun p => 0 <= p)%Z pages.
Proof.
  revert cp pages. induction lines as [|l lines IH]; intros cp pages Hcp.
  - intros [= <-]. constructor.
  - cbn [parse_pages]. intros H. inv_bind H. inv_bind H. injection H as <-.
    assert (0 <= v)%Z.
    { destruct (page_search l); [now apply int_nonneg in Hv|].
      now injection Hv as <-. }
    constructor; eauto.
Qed.

(** No heading of the outline has a negative page: a page is 1, the number
    of a page marker, or the number that ends an entry of a table of
    contents. *)
Theorem pages_not_negative (pdf_text : str) (doc : document) (h : heading) :
  extract_headings pdf_text = Ok doc -> In h (outline doc) ->
  (0 <= h_page h)%Z.
Proof.
  intros H Hh.
  destruct (outline_from_candidates _ _ _ H Hh) as (cands & c & Hc & Hin & ->).
  apply extract_candidates_Ok in Hc.
  destruct Hc as (pages & ns & ss & ts & Hp & Hn & Hs & Ht & ->). simpl.
  assert (Hpages : forall i, (0 <= page_get pages i)%Z).
  { intros i. unfold page_get.
    apply parse_pages_nonneg in Hp; [|lia].
    rewrite Forall_forall in Hp.
    destruct (nth_in_or_default i pages 1%Z) as [Hi| ->]; [auto | lia]. }
  apply in_app_or in Hin. destruct Hin as [Hin|Hin];
    [|apply in_app_or in Hin; destruct Hin as [Hin|Hin]].
  - destruct (for_enumerate_In _ _ _ _ _ Hn Hin)
      as (k & l & out & Hk & Hb & Ho).
    destruct (numbered_body_In _ _ _ _ _ _ Hb Ho) as (_ & _ & -> & _). auto.
  - destruct (for_enumerate_In _ _ _ _ _ Hs Hin)
      as (k & l & out & Hk & Hb & Ho).
    destruct (structural_scan_In _ _ _ _ _ _ _ _ Hb Ho) as (_ & -> & _). auto.
  - destruct (toc_candidate_page _ _ _ Ht Hin) as (line & _ & _ & Hi & _).
    now apply int_nonneg in Hi.
Qed.

Lemma pages_not_negative_sample :
  (0 <= h_page (mkHeading H1 (lit "1 Introduction") 5))%Z.
Proof.
  apply (pages_not_negative sample_toc sample_toc_document).
  - vm_compute. reflexivity.
  - right. left. reflexivity.
Defined.

(** ** The page markers written by the text extraction *)

Lemma split_app_sep sep a b :
  split sep (a ++ sep :: b) = split sep a ++ split sep b.
Proof.
  induction a as [|c a IH]; simpl.
  - now rewrite Ascii.eqb_refl.
  - destruct (Ascii.eqb c sep); [now rewrite IH|].
    rewrite IH. destruct (split_first sep a) as (w & ws & _ & -> & _).
    reflexivity.
Qed.

Lemma init_lines_app a b :
  init_lines (a ++ newline ++ b) = init_lines a ++ init_lines b.
Proof.
  unfold init_lines, newline. cbn [app].
  now rewrite split_app_sep, map_app, filter_app.
Qed.

Lemma split_whole sep m : ~ In sep m -> split sep m = [m].
Proof.
  induction m as [|c m IH]; simpl; [reflexivity|].
  intros H. destruct (Ascii.eqb_spec c sep) as [->|N]; [tauto|].
  rewrite IH by tauto. reflexivity.
Qed.

Lemma strip_whole c r :
  is_space c = false -> is_space (last (c :: r) c) = false ->
  strip (c :: r) = c :: r.
Proof.
  intros Hc Hl. unfold strip, lstrip, rstrip.
  rewrite (dropwhile_stuck _ _ _ Hc).
  assert (E : rev (c :: r) = last (c :: r) c :: rev (removelast (c :: r))).
  { rewrite (app_removelast_last c (l := c :: r)) at 1 by discriminate.
    now rewrite rev_app_distr. }
  rewrite E, (dropwhile_stuck _ _ _ Hl), <- E. apply rev_involutive.
Qed.

Lemma init_lines_whole c r :
  ~ In "010"%char (c :: r) ->
  is_space c = false -> is_space (last (c :: r) c) = false ->
  init_lines (c :: r) = [c :: r].
Proof.
  intros Hn Hc Hl. unfold init_lines.
  rewrite split_whole by assumption. cbn [map].
  rewrite strip_whole by assumption. reflexivity.
Qed.

Lemma uint_chars_decimal u : forallb is_decimal (uint_chars u) = true.
Proof. induction u; simpl; auto. Qed.

Lemma str_of_nat_nonempty n : str_of_nat n <> [].
Proof.
  unfold str_of_nat. intros E.
  destruct n as [|n]; [discriminate|].
  pose proof (DecimalNat.Unsigned.of_to (S n)) as H.
  destruct (Nat.to_uint (S n)); try discriminate.
Qed.

Lemma digits_fold_value u acc :
  fold_left (fun a c => 10 * a + digit_value c)%Z (uint_chars u)
    (Z.of_nat acc)
  = Z.of_nat (Nat.of_uint_acc u acc).
Proof.
  revert acc.
  induction u; intros acc; cbn [uint_chars fold_left Nat.of_uint_acc];
    [reflexivity|..];
    rewrite Nat.tail_mul_spec, <- IHu; f_equal;
    match goal with
    | |- context [digit_value ?c] =>
        let v := eval vm_compute in (digit_value c) in
        change (digit_value c) with v
    end; lia.
Qed.

(** Reading back a number written by an f-string gives the number. *)
Lemma int_str_of_nat n v : int (str_of_nat n) = Ok v -> v = Z.of_nat n.
Proof.
  unfold int, str_of_nat. rewrite uint_chars_decimal.
  destruct (isnil (uint_chars (Nat.to_uint n))); [discriminate|]. simpl.
  destruct (int_max_str_digits <? _)%Z; [discriminate|].
  intros [= <-].
  change 0%Z with (Z.of_nat 0). rewrite digits_fold_value.
  fold (Nat.of_uint (Nat.to_uint n)).
  now rewrite DecimalNat.Unsigned.of_to.
Qed.

Lemma decimal_not_space c : is_decimal c = true -> is_space c = false.
Proof. destruct c as [[] [] [] [] [] [] [] []]; vm_compute; congruence. Qed.

Lemma decimal_not_newline c : is_decimal c = true -> c <> "010"%char.
Proof. intros H ->. discriminate. Qed.

Lemma last_decimal (d : str) c :
  d <> [] -> forallb is_decimal d = true -> is_decimal (last d c) = true.
Proof.
  intros Hne Hd. rewrite forallb_forall in Hd. apply Hd.
  destruct (exists_last Hne) as (l & x & ->). rewrite last_last.
  apply in_or_app. right. now left.
Qed.

Lemma last_app_nonempty (a b : str) d :
  b <> [] -> last (a ++ b) d = last b d.
Proof.
  intros Hb. destruct (exists_last Hb) as (l & x & ->).
  now rewrite app_assoc, !last_last.
Qed.

Lemma page_marker_line page_num total :
  init_lines (page_marker page_num total) = [page_marker page_num total].
Proof.
  pose proof (uint_chars_decimal (Nat.to_uint page_num)) as H1.
  pose proof (uint_chars_decimal (Nat.to_uint total)) as H2.
  fold (str_of_nat page_num) in H1. fold (str_of_nat total) in H2.
  assert (E : exists r, page_marker page_num total = "P"%char :: r)
    by (eexists; reflexivity).
  destruct E as (r & E).
  assert (Hlast : is_space (last (page_marker page_num total) "P"%char)
                  = false).
  { unfold page_marker. rewrite !app_assoc.
    rewrite last_app_nonempty by apply str_of_nat_nonempty.
    apply decimal_not_space, last_decimal;
      [apply str_of_nat_nonempty | assumption]. }
  assert (Hnl : ~ In "010"%char (page_marker page_num total)).
  { unfold page_marker. rewrite forallb_forall in H1, H2. intros H.
    repeat (apply in_app_or in H; destruct H as [H|H]).
    - vm_compute in H. intuition discriminate.
    - now apply H1 in H.
    - vm_compute in H. intuition discriminate.
    - now apply H2 in H. }
  rewrite E in *. now apply init_lines_whole.
Qed.

Lemma page_marker_found page_num total :
  page_search (page_marker page_num total) = Some (str_of_nat page_num).
Proof.
  apply page_search_Some. exists 0. split; [|intros; lia].
  exists [], (str_of_nat total), []. unfold page_marker.
  rewrite app_nil_r. repeat split.
  - apply str_of_nat_nonempty.
  - apply uint_chars_decimal.
  - apply str_of_nat_nonempty.
  - apply uint_chars_decimal.
Qed.

Lemma init_lines_block acc m t :
  init_lines ((acc ++ (newline ++ m ++ newline)) ++ (t ++ newline))
  = init_lines acc ++ init_lines m ++ init_lines t.
Proof.
  rewrite <- !app_assoc. rewrite init_lines_app, init_lines_app.
  rewrite <- (app_nil_r newline) at 1. rewrite init_lines_app.
  change (init_lines []) with (@nil str). now rewrite app_nil_r.
Qed.

Lemma ocr_loop_lines total page_num page_texts text :
  init_lines (ocr_loop total page_num page_texts text)
  = init_lines text ++ ocr_lines total page_num page_texts.
Proof.
  revert page_num text.
  induction page_texts as [|t rest IH]; intros page_num text;
    cbn [ocr_loop ocr_lines].
  - now rewrite app_nil_r.
  - rewrite IH, init_lines_block, page_marker_line.
    now rewrite <- !app_assoc.
Qed.

Lemma parse_pages_quiet_app cp quiet rest :
  (forall l, In l quiet -> page_search l = None) ->
  parse_pages cp (quiet ++ rest)
  = (more <- parse_pages cp rest ;; Ok (repeat cp (length quiet) ++ more)).
Proof.
  induction quiet as [|l quiet IH]; intros H.
  - simpl. now destruct (parse_pages cp rest).
  - cbn [app parse_pages]. rewrite (H l) by now left. cbn [bind].
    rewrite IH by (intros; apply H; now right).
    now destruct (parse_pages cp rest).
Qed.

Lemma marker_free_quiet t l :
  marker_free t -> In l (init_lines t) -> page_search l = None.
Proof.
  intros H Hl. apply page_search_None. intros k p. now apply H.
Qed.

Lemma marked_block_pages cp page_num total t rest pages :
  marker_free t ->
  parse_pages cp (page_marker page_num total :: init_lines t ++ rest)
  = Ok pages ->
  exists more,
    parse_pages (Z.of_nat page_num) rest = Ok more /\
    pages = repeat (Z.of_nat page_num) (S (length (init_lines t))) ++ more.
Proof.
  intros Hfree H. cbn [parse_pages] in H. rewrite page_marker_found in H.
  inv_bind H. apply int_str_of_nat in Hv. subst v.
  rewrite parse_pages_quiet_app in H
    by (intros; eapply marker_free_quiet; eauto).
  inv_bind H. inv_bind Hv. injection Hv as <-. injection H as <-.
  exists v0. auto.
Qed.

Lemma ocr_lines_pages total page_num page_texts cp pages :
  Forall marker_free page_texts ->
  parse_pages cp (ocr_lines total page_num page_texts) = Ok pages ->
  pages = ocr_pages page_num page_texts.
Proof.
  intros Hfree. revert page_num cp pages.
  induction Hfree as [|t rest Ht _ IH]; intros page_num cp pages;
    cbn [ocr_lines ocr_pages].
  - now intros [= <-].
  - intros H. apply marked_block_pages in H; [|assumption].
    destruct H as (more & Hm & ->). f_equal. eauto.
Qed.

(** The text built by [extract_text_with_ocr] from the texts of the pages,
    none of which holds a page marker of its own, is read back page by
    page: its lines are, for each page in turn, the marker of the page and
    the lines of its text, and the page map gives all of them the number of
    that page, counted from 1. *)
Theorem ocr_text_pages (page_texts : list str) (pages : list Z) :
  Forall marker_free page_texts ->
  _parse_page_info (init_lines (extract_text_with_ocr page_texts))
  = Ok pages ->
  init_lines (extract_text_with_ocr page_texts)
  = ocr_lines (length page_texts) 1 page_texts /\
  pages = ocr_pages 1 page_texts.
Proof.
  intros Hfree H. unfold extract_text_with_ocr in *.
  rewrite ocr_loop_lines in *. change (init_lines []) with (@nil str) in *.
  cbn [app] in *. split; [reflexivity|].
  eapply ocr_lines_pages; eauto.
Qed.

Lemma marker_free_check t :
  forallb (fun l => match page_search l with None => true | _ => false end)
    (init_lines t) = true ->
  marker_free t.
Proof.
  intros H line k p Hl Hm. rewrite forallb_forall in H.
  apply H in Hl. apply marker_at_found in Hm.
  destruct (page_search line); [discriminate | congruence].
Qed.

Lemma ocr_text_pages_sample :
  init_lines (extract_text_with_ocr [lit "Abstract
We study headings."; lit "1. Scope"])
  = ocr_lines 2 1 [lit "Abstract
We study headings."; lit "1. Scope"] /\
  [1; 1; 1; 2; 2]%Z
  = ocr_pages 1 [lit "Abstract
We study headings."; lit "1. Scope"].
Proof.
  apply (ocr_text_pages [lit "Abstract
We study headings."; lit "1. Scope"] [1; 1; 1; 2; 2]%Z).
  - repeat constructor; apply marker_free_check; vm_compute; reflexivity.
  - vm_compute. reflexivity.
Defined.

Lemma plumber_loop_lines total page_num page_texts text :
  init_lines (plumber_loop total page_num page_texts text)
  = init_lines text ++ plumber_lines total page_num page_texts.
Proof.
  revert page_num text.
  induction page_texts as [|t rest IH]; intros page_num text;
    cbn [plumber_loop plumber_lines].
  - now rewrite app_nil_r.
  - rewrite IH. destruct t as [[|c r]|]; cbn [page_text_kept flat_map];
      try reflexivity.
    rewrite init_lines_block, page_marker_line.
    now rewrite <- !app_assoc.
Qed.

Lemma plumber_lines_pages total page_num page_texts cp pages :
  Forall (fun o => forall t, o = Some t -> marker_free t) page_texts ->
  parse_pages cp (plumber_lines total page_num page_texts) = Ok pages ->
  pages = plumber_pages page_num page_texts.
Proof.
  intros Hfree. revert page_num cp pages.
  induction Hfree as [|o rest Ho _ IH]; intros page_num cp pages;
    cbn [plumber_lines plumber_pages].
  - now intros [= <-].
  - destruct o as [[|c r]|]; cbn [page_text_kept flat_map app]; eauto.
    rewrite !app_nil_r. intros H.
    apply marked_block_pages in H; [|now apply Ho].
    destruct H as (more & Hm & ->). f_equal. eauto.
Qed.

(** The text built by [extract_text_with_pdfplumber] is read back page by
    page as well; a page without text ([None] or the empty string) leaves
    no line, and the pages after it keep their own numbers. *)
Theorem pdfplumber_text_pages (page_texts : list (option str))
    (pages : list Z) :
  Forall (fun o => forall t, o = Some t -> marker_free t) page_texts ->
  _parse_page_info (init_lines (extract_text_with_pdfplumber page_texts))
  = Ok pages ->
  init_lines (extract_text_with_pdfplumber page_texts)
  = plumber_lines (length page_texts) 1 page_texts /\
  pages = plumber_pages 1 page_texts.
Proof.
  intros Hfree H. unfold extract_text_with_pdfplumber in *.
  rewrite plumber_loop_lines in *. change (init_lines []) with (@nil str) in *.
  cbn [app] in *. split; [reflexivity|].
  eapply plumber_lines_pages; eauto.
Qed.

Lemma pdfplumber_text_pages_sample :
  init_lines (extract_text_with_pdfplumber
                [Some (lit "Abstract"); None; Some (lit ""); Some (lit "1. Scope")])
  = plumber_lines 4 1
      [Some (lit "Abstract"); None; Some (lit ""); Some (lit "1. Scope")] /\
  [1; 1; 4; 4]%Z
  = plumber_pages 1
      [Some (lit "Abstract"); None; Some (lit ""); Some (lit "1. Scope")].
Proof.
  apply (pdfplumber_text_pages
           [Some (lit "Abstract"); None; Some (lit ""); Some (lit "1. Scope")]
           [1; 1; 4; 4]%Z).
  - repeat constructor; intros t [= <-]; apply marker_free_check;
      vm_compute; reflexivity.
  - vm_compute. reflexivity.
Defined.

(** ** One candidate per line and detector *)

Lemma for_enumerate_increasing body i lines cs :
  (forall k line out, body k line = Ok out -> at_most_one_at k out) ->
  for_enumerate body i lines = Ok cs ->
  StronglySorted lt (map position cs) /\
  Forall (fun c => i <= position c) cs.
Proof.
  intros Hbody. revert i cs.
  induction lines as [|l lines IH]; intros i cs; simpl.
  - intros [= <-]. split; constructor.
  - intros H. inv_bind H. inv_bind H. injection H as <-.
    destruct (IH _ _ Hv0) as [Hs Hf].
    destruct (Hbody _ _ _ Hv) as [->|(c & -> & Hc)]; simpl.
    + split; [assumption|]. eapply Forall_impl; [|exact Hf]. cbv beta.
      intros; lia.
    + split.
      * constructor; [assumption|]. rewrite Forall_map.
        eapply Forall_impl; [|exact Hf]. cbv beta. intros; lia.
      * constructor; [lia|]. eapply Forall_impl; [|exact Hf]. cbv beta.
        intros; lia.
Qed.

Lemma numbered_body_one lines ltp k line out :
  numbered_body lines ltp k line = Ok out -> at_most_one_at k out.
Proof.
  unfold numbered_body, at_most_one_at.
  destruct (_is_noise_line line); [intros [= <-]; auto|].
  destruct (main_match line) as [[num g2]|].
  - intros H. inv_bind H. injection H as <-. destruct v; eauto.
  - destruct (sub_match line) as [[num g2]|]; [|intros [= <-]; auto].
    intros H. inv_bind H. injection H as <-. destruct v; eauto.
Qed.

Lemma structural_scan_one lines ltp k line line_lower patterns out :
  structural_scan lines ltp k line line_lower patterns = Ok out ->
  at_most_one_at k out.
Proof.
  unfold at_most_one_at.
  induction patterns as [|[pattern lvl] more IH]; simpl.
  - intros [= <-]. auto.
  - destruct (matches pattern line_lower); [|assumption].
    intros H. inv_bind H. destruct v; [|auto].
    injection H as <-. eauto.
Qed.

Lemma toc_scan_one k line out :
  toc_scan k line toc_patterns = Ok out -> at_most_one_at k out.
Proof.
  unfold toc_patterns, at_most_one_at. cbn [toc_scan].
  destruct (toc_main_match line) as [[[num x] pn]|].
  - intros H. inv_bind H. injection H as <-. eauto.
  - destruct (toc_sub_match line) as [[[num x] pn]|].
    + intros H. inv_bind H. injection H as <-. eauto.
    + intros [= <-]. auto.
Qed.

Lemma toc_loop_increasing b i lines cs :
  toc_loop b i lines = Ok cs ->
  StronglySorted lt (map position cs) /\
  Forall (fun c => i <= position c) cs.
Proof.
  revert b i cs. induction lines as [|l lines IH]; intros b i cs.
  - simpl. intros [= <-]. split; constructor.
  - cbn [toc_loop].
    assert (Skip : forall b',
              toc_loop b' (S i) lines = Ok cs ->
              StronglySorted lt (map position cs) /\
              Forall (fun c => i <= position c) cs).
    { intros b' H. destruct (IH _ _ _ H) as [Hs Hf]. split; [assumption|].
      eapply Forall_impl; [|exact Hf]. cbv beta. intros; lia. }
    destruct (contains _ _); [apply Skip|].
    destruct (b && toc_exit _); [apply Skip|].
    intros H. inv_bind H. inv_bind H. injection H as <-.
    destruct (IH _ _ _ Hv0) as [Hs Hf].
    assert (Hone : at_most_one_at i v).
    { destruct (b && negb (isnil l)); [now apply toc_scan_one in Hv|].
      injection Hv as <-. now left. }
    destruct Hone as [->|(c & -> & Hc)]; simpl.
    + split; [assumption|]. eapply Forall_impl; [|exact Hf]. cbv beta.
      intros; lia.
    + split.
      * constructor; [assumption|]. rewrite Forall_map.
        eapply Forall_impl; [|exact Hf]. cbv beta. intros; lia.
      * constructor; [lia|]. eapply Forall_impl; [|exact Hf]. cbv beta.
        intros; lia.
Qed.

(** Each of the three detectors gives at most one candidate per line and
    lists its candidates in the order of the lines: the positions of its
    candidates increase strictly. *)
Theorem detectors_one_per_line (lines : list str) (line_to_page : list Z)
    (numbered structural toc : list candidate) :
  _extract_numbered_headings lines line_to_page = Ok numbered ->
  _extract_structural_headings lines line_to_page = Ok structural ->
  _extract_toc_headings lines = Ok toc ->
  StronglySorted lt (map position numbered) /\
  StronglySorted lt (map position structural) /\
  StronglySorted lt (map position toc).
Proof.
  intros Hn Hs Ht. split; [|split].
  - eapply for_enumerate_increasing; [|exact Hn].
    intros k line out. apply numbered_body_one.
  - eapply for_enumerate_increasing; [|exact Hs].
    intros k line out. apply structural_scan_one.
  - eapply toc_loop_increasing. exact Ht.
Qed.

Lemma detectors_one_per_line_sample :
  StronglySorted lt (map position [mkCandidate H1 (lit "1. Scope") 1 2 9]) /\
  StronglySorted lt (map position [mkCandidate H1 (lit "Abstract") 1 1 6]) /\
  StronglySorted lt (map position (@nil candidate)).
Proof.
  apply (detectors_one_per_line (init_lines sample_mixed) [1; 1; 1]%Z);
    vm_compute; reflexivity.
Defined.

(** ** Entries of a table of contents and the other detectors *)

Lemma dropwhile_app_all p a b :
  forallb p a = true -> dropwhile p (a ++ b) = dropwhile p b.
Proof.
  induction a as [|c a IH]; simpl; [reflexivity|].
  intros H. apply andb_true_iff in H. destruct H as [-> H]. auto.
Qed.

Lemma dropwhile_nil_all p s : dropwhile p s = [] -> forallb p s = true.
Proof.
  induction s as [|c s IH]; simpl; [reflexivity|].
  destruct (p c); [auto | discriminate].
Qed.

(** Trimming on the right stops at a character that is not a space. *)
Lemma rstrip_app_solid a c b :
  is_space c = false -> rstrip (a ++ c :: b) = a ++ c :: rstrip b.
Proof.
  intros Hc. unfold rstrip.
  rewrite rev_app_distr. cbn [rev]. rewrite <- !app_assoc. cbn [app].
  destruct (dropwhile is_space (rev b)) as [|y ys] eqn:E.
  - rewrite dropwhile_app_all by now apply dropwhile_nil_all.
    rewrite (dropwhile_stuck _ _ _ Hc). cbn [rev].
    now rewrite rev_involutive.
  - rewrite dropwhile_app_stuck by (rewrite E; discriminate).
    rewrite E, rev_app_distr.
    change (rev (c :: rev a)) with (rev (rev a) ++ [c]).
    now rewrite rev_involutive, <- app_assoc.
Qed.

Lemma strip_solid_head c r : is_space c = false -> strip (c :: r) = rstrip (c :: r).
Proof. intros Hc. unfold strip, lstrip. now rewrite dropwhile_stuck. Qed.

(** The key text of a text that starts with digits and a character that is
    neither a digit nor a space. *)
Lemma key_digits_then d c r :
  d <> [] -> forallb is_decimal d = true ->
  is_space c = false -> lower_char c = c ->
  exists r', strip (lower (d ++ c :: r)) = d ++ c :: r'.
Proof.
  intros Hne Hd Hc Hl. unfold lower. rewrite map_app. fold (lower d).
  rewrite lower_decimals by assumption. cbn [map]. rewrite Hl.
  destruct d as [|d0 d]; [congruence|]. cbn [app].
  rewrite strip_solid_head
    by (apply decimal_not_space; simpl in Hd;
        apply andb_true_iff in Hd; tauto).
  change (d0 :: d ++ c :: map lower_char r)
    with ((d0 :: d) ++ c :: map lower_char r).
  rewrite rstrip_app_solid by assumption. eexists. reflexivity.
Qed.

(** The key text of a text made of digits, a space and more. *)
Lemma key_digits_space d x :
  d <> [] -> forallb is_decimal d = true ->
  exists r', strip (lower (d ++ lit " " ++ x)) = d ++ r' /\
             (r' = [] \/ exists r'', r' = " "%char :: r'').
Proof.
  intros Hne Hd. unfold lower. rewrite map_app. fold (lower d).
  rewrite lower_decimals by assumption.
  destruct (exists_last Hne) as (a & c & ->).
  rewrite forallb_app in Hd. apply andb_true_iff in Hd.
  destruct Hd as [Ha Hc]. simpl in Hc. rewrite andb_true_r in Hc.
  apply decimal_not_space in Hc.
  assert (Hhead : exists h t, (a ++ [c]) ++ map lower_char (lit " " ++ x)
                              = h :: t /\ is_space h = false).
  { destruct a as [|a0 a]; cbn [app].
    - eauto.
    - eexists. eexists. split; [reflexivity|].
      simpl in Ha. apply andb_true_iff in Ha.
      apply decimal_not_space. tauto. }
  destruct Hhead as (h & t & E & Hh).
  rewrite E, strip_solid_head by assumption. rewrite <- E.
  rewrite <- app_assoc. cbn [app]. rewrite rstrip_app_solid by assumption.
  exists (rstrip (map lower_char (lit " " ++ x))).
  split; [now rewrite <- app_assoc|].
  destruct (rstrip_prefix (map lower_char (lit " " ++ x))) as (t' & Et).
  destruct (rstrip (map lower_char (lit " " ++ x))) as [|y ys]; [now left|].
  right. exists ys. cbn in Et. now injection Et as <- _.
Qed.

Lemma digits_then_differ d c r d' r' :
  forallb is_decimal d = true -> forallb is_decimal d' = true ->
  is_decimal c = false -> c <> " "%char ->
  (r' = [] \/ exists r'', r' = " "%char :: r'') ->
  d ++ c :: r <> d' ++ r'.
Proof.
  intros Hd Hd' Hc Hsp Hr' E.
  destruct (take_drop_stop is_decimal d c r Hd Hc) as [_ D1].
  rewrite E in D1. destruct Hr' as [->|(r'' & ->)].
  - rewrite app_nil_r in D1.
    destruct (take_drop_end is_decimal d' Hd') as [_ D2]. congruence.
  - destruct (take_drop_stop is_decimal d' " " r'' Hd' eq_refl) as [_ D2].
    congruence.
Qed.

Lemma main_match_number line num g :
  main_match line = Some (num, g) ->
  num <> [] /\ forallb is_decimal num = true.
Proof.
  unfold main_match.
  destruct (digits1 line) as [[d [|c r]]|] eqn:D; try discriminate.
  apply digits1_Some in D. destruct D as (Hn & Hd & _).
  destruct c as [[] [] [] [] [] [] [] []]; try discriminate.
  destruct (spaces_rest r); [|discriminate]. now intros [= <- _].
Qed.

Lemma subnumber_shape s num r :
  subnumber s = Some (num, r) ->
  exists a b, a <> [] /\ forallb is_decimal a = true /\
              num = a ++ "."%char :: b.
Proof.
  unfold subnumber.
  destruct (digits1 s) as [[a [|c r1]]|] eqn:D; try discriminate.
  apply digits1_Some in D. destruct D as (Hn & Hd & _).
  destruct c as [[] [] [] [] [] [] [] []]; try discriminate.
  destruct (digits1 r1) as [[b r2]|]; [|discriminate].
  intros [= <- _]. eauto.
Qed.

(** A candidate of the numbered detector starts with digits and a dot. *)
Lemma numbered_candidate_number lines ltp numbered c :
  _extract_numbered_headings lines ltp = Ok numbered -> In c numbered ->
  exists d r, d <> [] /\ forallb is_decimal d = true /\
              text c = d ++ "."%char :: r.
Proof.
  intros H Hc.
  destruct (for_enumerate_In _ _ _ _ _ H Hc) as (k & l & out & Hk & Hb & Ho).
  destruct (numbered_body_In _ _ _ _ _ _ Hb Ho)
    as (_ & _ & _ & num & g2 & _ & Hm).
  destruct Hm as [(M & -> & _)|(M & -> & _)].
  - apply main_match_number in M. destruct M as [Hn Hd].
    exists num. eexists. split; [assumption|]. split; [assumption|].
    reflexivity.
  - unfold sub_match in M.
    destruct (subnumber l) as [[n r]|] eqn:S; [|discriminate].
    destruct (spaces_rest r); [|discriminate]. injection M as <- _.
    apply subnumber_shape in S. destruct S as (a & b & Ha & Hd & ->).
    exists a. eexists. split; [assumption|]. split; [assumption|].
    rewrite <- app_assoc. reflexivity.
Qed.

(** An H1 candidate of the table-of-contents detector is digits, a space
    and a text. *)
Lemma toc_h1_number lines toc c :
  _extract_toc_headings lines = Ok toc -> In c toc -> level c = H1 ->
  exists d x, d <> [] /\ forallb is_decimal d = true /\
              text c = d ++ lit " " ++ x.
Proof.
  intros H Hc Hl. unfold _extract_toc_headings in H.
  destruct (toc_loop_In _ _ _ _ _ H Hc)
    as (k & line & out & _ & _ & _ & _ & Hs & Ho).
  destruct (toc_scan_In _ _ _ _ Hs Ho) as (num & x & pn & M & Hlv & Ht & _).
  rewrite Hl in Hlv.
  destruct (existsb (Ascii.eqb ".") num) eqn:Edot; [discriminate|].
  exists num, x. destruct M as [M|M].
  - unfold toc_main_match in M.
    destruct (digits1 line) as [[d [|c0 r]]|] eqn:D; try discriminate.
    apply digits1_Some in D. destruct D as (Hn & Hd & _).
    destruct c0 as [[] [] [] [] [] [] [] []]; try discriminate.
    destruct (toc_tail r) as [[x' d']|]; [|discriminate].
    injection M as <- _ _. auto.
  - exfalso. unfold toc_sub_match in M.
    destruct (subnumber line) as [[n r]|] eqn:S; [|discriminate].
    destruct (toc_tail r) as [[x' d']|]; [|discriminate].
    injection M as <- _ _.
    apply subnumber_shape in S. destruct S as (a & b & _ & _ & ->).
    rewrite existsb_app in Edot. simpl in Edot.
    now rewrite orb_true_r in Edot.
Qed.

(** An H1 entry of a table of contents never has the deduplication key of
    a candidate of the numbered or of the structural detector: it is
    written without the dot after its number, so the deduplication never
    merges it with the heading it announces. *)
Theorem toc_h1_never_merged (lines : list str) (line_to_page : list Z)
    (numbered structural toc : list candidate) :
  _extract_numbered_headings lines line_to_page = Ok numbered ->
  _extract_structural_headings lines line_to_page = Ok structural ->
  _extract_toc_headings lines = Ok toc ->
  forall c1 c2,
    In c1 (numbered ++ structural) -> In c2 toc -> level c2 = H1 ->
    candidate_key c1 <> candidate_key c2.
Proof.
  intros Hn Hs Ht c1 c2 H1 H2 Hl Ekey.
  destruct (toc_h1_number _ _ _ Ht H2 Hl) as (d' & x & Hn' & Hd' & E2).
  destruct (key_digits_space d' x Hn' Hd') as (r' & Ek2 & Hr').
  unfold candidate_key, dedup_key in Ekey. injection Ekey as Etext _.
  rewrite E2, Ek2 in Etext.
  apply in_app_or in H1. destruct H1 as [H1|H1].
  - destruct (numbered_candidate_number _ _ _ _ Hn H1)
      as (d & r & Hne & Hd & E1).
    destruct (key_digits_then d "." r Hne Hd eq_refl eq_refl) as (r1 & Ek1).
    rewrite E1, Ek1 in Etext. revert Etext.
    apply digits_then_differ; auto. discriminate.
  - destruct (for_enumerate_In _ _ _ _ _ Hs H1)
      as (k & l & out & Hk & Hb & Ho).
    destruct (structural_scan_In _ _ _ _ _ _ _ _ Hb Ho)
      as (_ & _ & Et & _ & _ & pattern & Hin & M).
    rewrite <- Et in M.
    destruct (structural_starts_with_letter _ _ _ Hin M)
      as (c & r & El & Hc).
    rewrite El in Etext. destruct d' as [|d0 d']; [congruence|].
    injection Etext as -> _. simpl in Hd'.
    apply andb_true_iff in Hd'. destruct Hd' as [Hd0 _]. congruence.
Qed.

Lemma toc_h1_never_merged_sample :
  candidate_key (mkCandidate H1 (lit "1. Introduction 5") 1 1 9)
  <> candidate_key (mkCandidate H1 (lit "1 Introduction") 5 1 5).
Proof.
  apply (toc_h1_never_merged (init_lines sample_toc) [1; 1; 1]%Z
           [mkCandidate H1 (lit "1. Introduction 5") 1 1 9] []
           [mkCandidate H1 (lit "1 Introduction") 5 1 5]).
  - vm_compute. reflexivity.
  - vm_compute. reflexivity.
  - vm_compute. reflexivity.
  - left. reflexivity.
  - left. reflexivity.
  - reflexivity.
Defined.
